(** * NPMRDS travel time reliability: a shallow embedding of [main.py]

    The script turns probe-vehicle observations into LOTTR (Level Of Travel
    Time Reliability) tables.  Data frames are lists of records, one record
    per row, in row order.  Column operations of pandas become [map]s over
    the rows, [pd.merge(..., how='left')] becomes [merge_left], and the one
    function that can raise, [add_lottr_to_dataset], lives in a small monad
    that also logs the frame operations it performs.

    Modelling conventions.
    - A float cell is an [fval]: a rational, an infinity, or NaN (pandas'
      missing value).  Dtype narrowing
      ([pd.to_numeric(..., downcast=...)], [astype('category')]) changes
      the representation of a cell, not the value modelled here, and is the
      identity.  The one arithmetic operation of the script, the division
      that gives LOTTR, is idealised (see [fdiv]); the statements below are
      about which cells are divided, never about the value of a quotient of
      two numbers.
    - [DATETIME] is the [datetime64[ns]] payload: nanoseconds since
      1970-01-01T00:00 (a Thursday).  Keys ([tmc_code], [DATETIME]) are never
      missing.
    - Only the four columns the script names are carried: [tmc_code],
      [DATETIME], [MPH], [TT_SEC].
    - [np.percentile] is a NumPy function; its 'closest_observation' method
      is modelled from NumPy's definition, with the rank it selects when
      the index is a whole number (its parity rule, and the rounding of its
      floating-point index) as a parameter [tie] of everything that calls
      it. *)

From Stdlib Require Import List ZArith QArith String Ascii Bool Lia Permutation
  Sorted DecimalString DecimalZ.
Import ListNotations.
Local Open Scope Z_scope.

Set Implicit Arguments.

(* ===================================================================== *)
(** * Float cells *)
(* ===================================================================== *)

Inductive fval : Type :=
| NaN
| NInf
| Fin (x : Q)
| PInf.

(** [Series.isna()] on a float column. *)
Definition isna (v : fval) : bool :=
  match v with NaN => true | _ => false end.

Definition Qis_zero (x : Q) : bool := (Qnum x =? 0)%Z.
Definition Qis_neg (x : Q) : bool := (Qnum x <? 0)%Z.

(** Division of two cells, in the arithmetic of the cells as they are
    modelled here: the quotient of two numbers is their rational quotient,
    a zero divisor gives an infinity, or NaN for 0/0, and NaN operands
    propagate.  The rounding of the quotient to the float type of the
    column, the overflow of a large quotient to an infinity and the sign of
    a negative zero are those of IEEE arithmetic in the code and are not
    modelled: no statement below depends on the value of a quotient of two
    numbers. *)
Definition fdiv (a b : fval) : fval :=
  match a, b with
  | NaN, _ | _, NaN => NaN
  | Fin x, Fin y =>
      if Qis_zero y then
        if Qis_zero x then NaN else if Qis_neg x then NInf else PInf
      else Fin (x / y)%Q
  | Fin _, (PInf | NInf) => Fin 0%Q
  | PInf, Fin y => if Qis_neg y then NInf else PInf
  | NInf, Fin y => if Qis_neg y then PInf else NInf
  | (PInf | NInf), (PInf | NInf) => NaN
  end.

(** The order numpy sorts non-NaN floats by. *)
Definition fleb (a b : fval) : bool :=
  match a, b with
  | NaN, _ => false
  | _, NaN => true
  | NInf, _ => true
  | _, NInf => false
  | _, PInf => true
  | PInf, _ => false
  | Fin x, Fin y => Qle_bool x y
  end.

Fixpoint insert_sorted (v : fval) (l : list fval) : list fval :=
  match l with
  | [] => [v]
  | w :: l' => if fleb v w then v :: l else w :: insert_sorted v l'
  end.

(** [np.sort]: ascending order. *)
Definition np_sort (l : list fval) : list fval :=
  fold_right insert_sorted [] l.

(* ===================================================================== *)
(** * [np.percentile(x, q, method='closest_observation')] *)
(* ===================================================================== *)

(** NumPy computes the virtual index [n * (q/100) - 1 - 0.5], takes
    [previous = floor index], [next = previous + 1] and
    [gamma = index - previous], and selects [previous] when [gamma = 0] and
    a parity test on the index holds, [next] otherwise; a negative result
    is clipped to 0.

    NumPy computes the index in floating point.  The real number
    [n*q/100 - 3/2] is a multiple of [1/200]; where it is not whole, the
    rounding of the floating-point index, far below [1/200] for an array
    of fewer than [2^40] elements, changes neither the floor nor the test
    [gamma = 0], and the rank is [next].  Where it is whole, the
    floating-point index is that whole number, and the parity test, which
    is not the same in every NumPy release, chooses between [previous] and
    [next]; or it falls just beside the whole number, and the rank is
    again one of these two.  What NumPy selects there is the parameter
    [tie] of the model: [tie n q] tells whether [previous] is selected
    when [n*q/100 - 3/2] is whole.

    The real index is computed here scaled by 200:
    [200 * index = 2*n*q - 300]. *)
Definition closest_observation (tie : Z -> Z -> bool) (n q : Z) : Z :=
  let index200 := 2 * n * q - 300 in
  let previous := index200 / 200 in
  let next := previous + 1 in
  let gamma_is_zero := index200 mod 200 =? 0 in
  let res := if gamma_is_zero && tie n q then previous else next in
  if res <? 0 then 0 else res.

Definition tie_index_odd (n q : Z) : bool :=
  ((2 * n * q - 300) / 200) mod 2 =? 1.

(** The percentile of a non-empty array without NaN: the element of the
    sorted array at the selected rank. *)
Definition np_percentile (tie : Z -> Z -> bool) (x : list fval) (q : Z) : fval :=
  nth (Z.to_nat (closest_observation tie (Z.of_nat (List.length x)) q))
      (np_sort x) NaN.

(* ===================================================================== *)
(** * Rows *)
(* ===================================================================== *)

(** A row as [csv_preprocessing_pipeline] returns it. *)
Record Obs : Type := mkObs {
  tmc_code : string;
  DATETIME : Z;
  MPH : fval;
  TT_SEC : fval
}.

Inductive tod : Type := AM | MD | PM | WE | EV.

(** A row after [add_hod_dow_tod_to_dataset]. *)
Record Bucketed : Type := mkBucketed {
  obs : Obs;
  HOD : Z;
  DOW : Z;
  TOD : tod
}.

(** A row of [data_perc] after [groupby(...).agg(...).reset_index()]. *)
Record Perc : Type := mkPerc {
  perc_tmc_code : string;
  perc_TOD : tod;
  perc_TTQ1P : fval;
  perc_TTQ2P : fval
}.

(** A row after [add_lottr_to_dataset]. *)
Record Reliab : Type := mkReliab {
  bkt : Bucketed;
  TTQ1P : fval;
  TTQ2P : fval;
  LOTTR : fval
}.

(** A row of [data_int_merged]; the [TRK_] key and time-bucket columns,
    dropped at the end of the merge, are not carried.  [FLAG] is [None]
    while the cell is NaN. *)
Record Merged : Type := mkMerged {
  veh : Reliab;
  TRK_MPH : fval;
  TRK_TT_SEC : fval;
  TRK_TTQ1P : fval;
  TRK_TTQ2P : fval;
  TRK_LOTTR : fval;
  FLAG : option Z
}.

Definition row_key (r : Obs) : string * Z := (tmc_code r, DATETIME r).
Definition reliab_obs (r : Reliab) : Obs := obs (bkt r).
Definition reliab_key (r : Reliab) : string * Z := row_key (reliab_obs r).

Definition tod_eqb (a b : tod) : bool :=
  match a, b with
  | AM, AM | MD, MD | PM, PM | WE, WE | EV, EV => true
  | _, _ => false
  end.

Definition key_eqb (a b : string * Z) : bool :=
  String.eqb (fst a) (fst b) && (snd a =? snd b).

Definition group_key (r : Bucketed) : string * tod := (tmc_code (obs r), TOD r).
Definition perc_key (p : Perc) : string * tod := (perc_tmc_code p, perc_TOD p).

Definition group_eqb (a b : string * tod) : bool :=
  String.eqb (fst a) (fst b) && tod_eqb (snd a) (snd b).

(* ===================================================================== *)
(** * [pd.merge(left, right, how='left')] *)
(* ===================================================================== *)

(** The output rows of one left row [l]: [l] paired with each right row of
    equal key, or with nothing when no right row has that key. *)
Definition matches {L R K : Type} (eqb : K -> K -> bool)
    (kl : L -> K) (kr : R -> K) (right : list R) (l : L)
  : list (L * option R) :=
  match filter (fun r => eqb (kl l) (kr r)) right with
  | [] => [(l, None)]
  | ms => map (fun r => (l, Some r)) ms
  end.

(** Every left row in order, each with its matches in right order. *)
Definition merge_left {L R K : Type} (eqb : K -> K -> bool)
    (kl : L -> K) (kr : R -> K) (left : list L) (right : list R)
  : list (L * option R) :=
  flat_map (matches eqb kl kr right) left.

(* ===================================================================== *)
(** * Time Bucketer: [add_hod_dow_tod_to_dataset] *)
(* ===================================================================== *)

Definition ns_per_hour : Z := 3600 * 1000000000.
Definition ns_per_day : Z := 24 * ns_per_hour.

(** [Series.dt.hour] *)
Definition dt_hour (t : Z) : Z := (t / ns_per_hour) mod 24.

(** [Series.dt.dayofweek]: Monday is 0, Sunday is 6. *)
Definition dt_dayofweek (t : Z) : Z := (t / ns_per_day + 3) mod 7.

(** [Series.replace(a, b)] on one cell. *)
Definition replace (a b x : Z) : Z := if x =? a then b else x.

(** [Series.between(lo, hi, inclusive='neither')] on one cell. *)
Definition between_neither (lo hi x : Z) : bool := (lo <? x) && (x <? hi).

(** [Series.between(lo, hi)] on one cell: both ends included. *)
Definition between (lo hi x : Z) : bool := (lo <=? x) && (x <=? hi).

(** [Series.isin(values)] on one cell. *)
Definition isin (values : list Z) (x : Z) : bool := existsb (Z.eqb x) values.

(** [data.loc[mask, 'TOD'] = v] *)
Definition loc_set_TOD (mask : Bucketed -> bool) (v : tod)
    (data : list Bucketed) : list Bucketed :=
  map (fun r => if mask r
                then {| obs := obs r; HOD := HOD r; DOW := DOW r; TOD := v |}
                else r)
      data.

Definition add_hod_dow_tod_to_dataset (data : list Obs) : list Bucketed :=
  let data :=
    map (fun r => {| obs := r;
                     HOD := dt_hour (DATETIME r);
                     DOW := replace 8 1 (dt_dayofweek (DATETIME r) + 2);
                     TOD := EV |})
        data in
  let data :=
    loc_set_TOD (fun r => between_neither 5 10 (HOD r) && between 2 6 (DOW r))
                AM data in
  let data :=
    loc_set_TOD (fun r => between_neither 9 16 (HOD r) && between 2 6 (DOW r))
                MD data in
  let data :=
    loc_set_TOD (fun r => between_neither 15 20 (HOD r) && between 2 6 (DOW r))
                PM data in
  let data :=
    loc_set_TOD (fun r => between_neither 5 20 (HOD r) && isin [1; 7] (DOW r))
                WE data in
  data.

(* ===================================================================== *)
(** * Raising, and the log of frame operations *)
(* ===================================================================== *)

(** The operations [add_lottr_to_dataset] performs on frames, in the order
    it performs them. *)
Inductive FrameOp : Type :=
| OpCopy
| OpDropna
| OpGroupbyAgg
| OpMerge
| OpDivide
| OpRename.

Inductive outcome (A : Type) : Type :=
| Ok (a : A)
| Raised (msg : string).

Arguments Ok {A} a.
Arguments Raised {A} msg.

(** A computation reads the log of operations done so far and returns a
    value or an exception, with the log extended by what it did. *)
Definition M (A : Type) : Type := list FrameOp -> outcome A * list FrameOp.

Definition ret {A : Type} (a : A) : M A := fun log => (Ok a, log).

Definition bind {A B : Type} (m : M A) (f : A -> M B) : M B :=
  fun log =>
    match m log with
    | (Ok a, log') => f a log'
    | (Raised msg, log') => (Raised msg, log')
    end.

(** [raise Exception(msg)] *)
Definition raise {A : Type} (msg : string) : M A := fun log => (Raised msg, log).

(** A frame operation with result [a]. *)
Definition frame_op {A : Type} (op : FrameOp) (a : A) : M A :=
  fun log => (Ok a, log ++ [op]).

Notation "x <- m ;; k" := (bind m (fun x => k))
  (at level 61, m at next level, right associativity).

(* ===================================================================== *)
(** * Reliability Calculator: [add_lottr_to_dataset] *)
(* ===================================================================== *)

(** [data.dropna(subset=['TT_SEC'])] *)
Definition dropna_TT_SEC (data : list Bucketed) : list Bucketed :=
  filter (fun r => negb (isna (TT_SEC (obs r)))) data.

Definition tod_eq_dec (a b : tod) : {a = b} + {a <> b}.
Proof. decide equality. Defined.

Definition group_eq_dec (a b : string * tod) : {a = b} + {a <> b}.
Proof. decide equality; [apply tod_eq_dec | apply string_dec]. Defined.

(** The [TT_SEC] column of the rows of one group: the series the
    aggregation lambdas receive as [x]. *)
Definition group_TT_SEC (data : list Bucketed) (k : string * tod) : list fval :=
  map (fun r => TT_SEC (obs r))
      (filter (fun r => group_eqb (group_key r) k) data).

(** [data.groupby(['tmc_code','TOD']).agg(TTQ1P=..., TTQ2P=...).reset_index()]:
    one row per (tmc_code, TOD) pair that occurs in [data].  The order of
    these rows does not show in the left merge that follows. *)
Definition groupby_agg (tie : Z -> Z -> bool) (data : list Bucketed) (q1 q2 : Z)
  : list Perc :=
  map (fun k =>
         {| perc_tmc_code := fst k;
            perc_TOD := snd k;
            perc_TTQ1P := np_percentile tie (group_TT_SEC data k) q1;
            perc_TTQ2P := np_percentile tie (group_TT_SEC data k) q2 |})
      (nodup group_eq_dec (map group_key data)).

(** A joined percentile column: NaN on the rows without a match. *)
Definition joined {R : Type} (col : R -> fval) (o : option R) : fval :=
  match o with Some r => col r | None => NaN end.

(** [data['LOTTR'] = data['TTQ2P'] / data['TTQ1P']] on a row of the frame
    merged with [data_perc]. *)
Definition assign_LOTTR (j : Bucketed * option Perc) : Reliab :=
  let ttq1p := joined perc_TTQ1P (snd j) in
  let ttq2p := joined perc_TTQ2P (snd j) in
  {| bkt := fst j; TTQ1P := ttq1p; TTQ2P := ttq2p; LOTTR := fdiv ttq2p ttq1p |}.

Definition out_of_range (q1 q2 : Z) : bool :=
  ((q1 <? 0) || (q1 >? 100)) || ((q2 <? 0) || (q2 >? 100)).

Definition add_lottr_to_dataset (tie : Z -> Z -> bool) (data : list Bucketed)
    (q1 q2 : Z) : M (list Reliab) :=
  if out_of_range q1 q2 then
    raise "q1 and q2 must be between 0 and 100."
  else
    data <- frame_op OpCopy data ;;
    data_perc <- frame_op OpDropna (dropna_TT_SEC data) ;;
    data_perc <- frame_op OpCopy data_perc ;;
    data_perc <- frame_op OpGroupbyAgg (groupby_agg tie data_perc q1 q2) ;;
    data <- frame_op OpMerge
              (merge_left group_eqb group_key perc_key data data_perc) ;;
    data <- frame_op OpDivide (map assign_LOTTR data) ;;
    data <- frame_op OpRename data ;;
    ret data.

(* ===================================================================== *)
(** * Main code: the interstate feeds *)
(* ===================================================================== *)

(** 1. Interstate, all vehicles.  The state-route and US-route feeds go
    through the same two calls. *)
Definition data_int (tie : Z -> Z -> bool) (ohint : list Obs) : M (list Reliab) :=
  add_lottr_to_dataset tie (add_hod_dow_tod_to_dataset ohint) 50 80.

(** [pd.merge(data_int[['tmc_code','DATETIME']].copy(), data_int_trk,
    how='left')]: the truck rows laid onto the all-vehicle keys. *)
Definition merge_on_keys (keys : list (string * Z)) (trk : list Obs)
  : list Obs :=
  map (fun j => {| tmc_code := fst (fst j);
                   DATETIME := snd (fst j);
                   MPH := joined MPH (snd j);
                   TT_SEC := joined TT_SEC (snd j) |})
      (merge_left key_eqb (fun k => k) row_key keys trk).

(** 2. Interstate, trucks only. *)
Definition data_int_trk (tie : Z -> Z -> bool) (data_int : list Reliab)
    (ohintrk : list Obs) : M (list Reliab) :=
  let data_int_trk := merge_on_keys (map reliab_key data_int) ohintrk in
  add_lottr_to_dataset tie (add_hod_dow_tod_to_dataset data_int_trk) 50 95.

(** A row of the frame merged on the keys: the [TRK_] cells are the truck
    row's, or NaN when no truck row matches, and there is no [FLAG] yet. *)
Definition joined_row (j : Reliab * option Reliab) : Merged :=
  {| veh := fst j;
     TRK_MPH := joined (fun s => MPH (reliab_obs s)) (snd j);
     TRK_TT_SEC := joined (fun s => TT_SEC (reliab_obs s)) (snd j);
     TRK_TTQ1P := joined TTQ1P (snd j);
     TRK_TTQ2P := joined TTQ2P (snd j);
     TRK_LOTTR := joined LOTTR (snd j);
     FLAG := None |}.

(** [pd.merge(data_int, data_int_trk, how='left',
              left_on=['tmc_code','DATETIME'],
              right_on=['TRK_tmc_code','TRK_DATETIME'])] *)
Definition join_trk (data_int data_int_trk : list Reliab) : list Merged :=
  map joined_row
      (merge_left key_eqb reliab_key reliab_key data_int data_int_trk).

Definition with_FLAG (f : option Z) (m : Merged) : Merged :=
  {| veh := veh m; TRK_MPH := TRK_MPH m; TRK_TT_SEC := TRK_TT_SEC m;
     TRK_TTQ1P := TRK_TTQ1P m; TRK_TTQ2P := TRK_TTQ2P m;
     TRK_LOTTR := TRK_LOTTR m; FLAG := f |}.

(** [data_int_merged.loc[data_int_merged['TRK_TT_SEC'].isna(), 'FLAG'] = 1] *)
Definition set_FLAG_row (m : Merged) : Merged :=
  if isna (TRK_TT_SEC m) then with_FLAG (Some 1) m else m.

Definition set_FLAG (data : list Merged) : list Merged := map set_FLAG_row data.

(** [data_int_merged['FLAG'] = data_int_merged['FLAG'].fillna(0)] *)
Definition fillna_FLAG_row (m : Merged) : Merged :=
  match FLAG m with None => with_FLAG (Some 0) m | Some _ => m end.

Definition fillna_FLAG (data : list Merged) : list Merged :=
  map fillna_FLAG_row data.

(** [data_int_merged.loc[mask, ['TRK_MPH','TRK_TT_SEC']] =
     data_int_merged.loc[mask, ['MPH','TT_SEC']].to_numpy()]
    with [mask = data_int_merged['TRK_TT_SEC'].isna()]. *)
Definition impute_row (m : Merged) : Merged :=
  if isna (TRK_TT_SEC m) then
    {| veh := veh m;
       TRK_MPH := MPH (reliab_obs (veh m));
       TRK_TT_SEC := TT_SEC (reliab_obs (veh m));
       TRK_TTQ1P := TRK_TTQ1P m; TRK_TTQ2P := TRK_TTQ2P m;
       TRK_LOTTR := TRK_LOTTR m; FLAG := FLAG m |}
  else m.

Definition impute (data : list Merged) : list Merged := map impute_row data.

(** The frame before imputation: joined and flagged. *)
Definition flagged (data_int data_int_trk : list Reliab) : list Merged :=
  fillna_FLAG (set_FLAG (join_trk data_int data_int_trk)).

(** 3. The merge of the truck result into the all-vehicle result. *)
Definition merge_impute (data_int data_int_trk : list Reliab) : list Merged :=
  impute (flagged data_int data_int_trk).

(** The main code up to the merged frame.  The assignment of the scalar 1
    to the new column [FLAG] through [.loc] raises a [ValueError] when the
    merged frame has no rows. *)
Definition data_int_merged (tie : Z -> Z -> bool) (ohint ohintrk : list Obs)
  : M (list Merged) :=
  P <- data_int tie ohint ;;
  S <- data_int_trk tie P ohintrk ;;
  match join_trk P S with
  | [] => raise "cannot set a frame with no defined index and a scalar"
  | _ :: _ => ret (merge_impute P S)
  end.

(** Running a computation from an empty log. *)
Definition run {A : Type} (m : M A) : outcome A * list FrameOp := m [].

(** The frame a run returned; no rows if it raised. *)
Definition rows_of {A : Type} (r : outcome (list A) * list FrameOp) : list A :=
  match fst r with Ok rows => rows | Raised _ => [] end.

(* ===================================================================== *)
(** * Names: columns and output files *)
(* ===================================================================== *)

(** [c in s] for a character [c]. *)
Fixpoint has_char (c : ascii) (s : string) : bool :=
  match s with
  | EmptyString => false
  | String a s' => Ascii.eqb a c || has_char c s'
  end.

(** [str(q)] for an [int]: decimal digits, with a minus sign below zero. *)
Definition str (q : Z) : string := NilZero.string_of_int (Z.to_int q).

(** [f'TT{q}P']: the name the percentile column is renamed to. *)
Definition percentile_label (q : Z) : string :=
  ("TT" ++ str q ++ "P")%string.

(** [f'TRK_{c}'] *)
Definition trk_label (c : string) : string := ("TRK_" ++ c)%string.

(** [data_int_trk.columns = [f'TRK_{c}' for c in data_int_trk.columns]] *)
Definition trk_columns (columns : list string) : list string :=
  map trk_label columns.

(** [data.rename(columns={'measurement_tstamp':'DATETIME', 'speed':'MPH',
    'travel_time_seconds':'TT_SEC'})] on one column name: a name in the
    dictionary is replaced, any other is kept. *)
Definition rename_label (c : string) : string :=
  if String.eqb c "measurement_tstamp" then "DATETIME"%string
  else if String.eqb c "speed" then "MPH"%string
  else if String.eqb c "travel_time_seconds" then "TT_SEC"%string
  else c.

Definition rename_columns (columns : list string) : list string :=
  map rename_label columns.

(** [os.path.split(p)[1]] with [/] as separator: [p[i:]] for
    [i = p.rfind('/') + 1], what follows the last separator, or all of
    [p] when it has none. *)
Fixpoint path_tail (p : string) : string :=
  match p with
  | EmptyString => EmptyString
  | String a p' =>
      if has_char "/" p' then path_tail p'
      else if Ascii.eqb a "/" then p' else p
  end.

(** [s.split('.')[0]]: what precedes the first dot, or all of [s] when
    it has none. *)
Fixpoint before_first_dot (s : string) : string :=
  match s with
  | EmptyString => EmptyString
  | String a s' =>
      if Ascii.eqb a "." then EmptyString else String a (before_first_dot s')
  end.

(** [os.path.split(filename)[1].split('.')[0]] *)
Definition filename_without_format (filename : string) : string :=
  before_first_dot (path_tail filename).

(** [f'./LOTTR_{filename_without_format}.csv'] *)
Definition output_name (filename : string) : string :=
  ("./LOTTR_" ++ filename_without_format filename ++ ".csv")%string.

Definition filename_ohint : string := "./Datafiles/OHINT23/OHINT23.csv".
Definition filename_ohintrk : string := "./Datafiles/OHINTRK23/OHINTRK23.csv".
Definition filename_ohsro : string := "./Datafiles/OHSRO23/OHSRO23.csv".
Definition filename_ohusr : string := "./Datafiles/OHUSR23/OHUSR23.csv".

(** No name occurs twice. *)
Fixpoint names_distinct (l : list string) : bool :=
  match l with
  | [] => true
  | c :: l' => negb (existsb (String.eqb c) l') && names_distinct l'
  end.

(** The columns of the all-vehicle interstate frame and of the truck frame
    before its columns are renamed, for feeds with the four loaded columns
    the script names. *)
Definition data_int_columns : list string :=
  [ "tmc_code"; "DATETIME"; "MPH"; "TT_SEC"; "HOD"; "DOW"; "TOD";
    percentile_label 50; percentile_label 80; "LOTTR" ]%string.

Definition data_int_trk_columns : list string :=
  [ "tmc_code"; "DATETIME"; "MPH"; "TT_SEC"; "HOD"; "DOW"; "TOD";
    percentile_label 50; percentile_label 95; "LOTTR" ]%string.

(** The header of an NPMRDS export. *)
Definition npmrds_columns : list string :=
  [ "tmc_code"; "measurement_tstamp"; "speed"; "average_speed";
    "reference_speed"; "travel_time_seconds"; "data_density" ]%string.

(* ===================================================================== *)
(** * What a call computes, row by row *)
(* ===================================================================== *)

(** The rows a call of [add_lottr_to_dataset] returns when it does not
    raise, and the operations it logs. *)
Definition lottr_rows (tie : Z -> Z -> bool) (data : list Bucketed) (q1 q2 : Z)
  : list Reliab :=
  map assign_LOTTR
      (merge_left group_eqb group_key perc_key data
                  (groupby_agg tie (dropna_TT_SEC data) q1 q2)).

Definition lottr_log : list FrameOp :=
  [OpCopy; OpDropna; OpCopy; OpGroupbyAgg; OpMerge; OpDivide; OpRename].

(** The non-missing travel times observed in the (tmc_code, TOD) group of
    row [r]. *)
Definition group_values (data : list Bucketed) (r : Bucketed) : list fval :=
  group_TT_SEC (dropna_TT_SEC data) (group_key r).

(** The percentile a row receives: that of its group's non-missing travel
    times, NaN when there are none. *)
Definition row_percentile (tie : Z -> Z -> bool) (data : list Bucketed) (q : Z)
    (r : Bucketed) : fval :=
  match group_values data r with
  | [] => NaN
  | x => np_percentile tie x q
  end.

Definition lottr_row (tie : Z -> Z -> bool) (data : list Bucketed) (q1 q2 : Z)
    (r : Bucketed) : Reliab :=
  {| bkt := r;
     TTQ1P := row_percentile tie data q1 r;
     TTQ2P := row_percentile tie data q2 r;
     LOTTR := fdiv (row_percentile tie data q2 r) (row_percentile tie data q1 r) |}.

(** The time-of-day rules as conditions on an hour and a day of week. *)
Definition weekday (d : Z) : Prop := 2 <= d <= 6.
Definition weekend (d : Z) : Prop := d = 1 \/ d = 7.

Definition is_AM (h d : Z) : Prop := 5 < h < 10 /\ weekday d.
Definition is_MD (h d : Z) : Prop := 9 < h < 16 /\ weekday d.
Definition is_PM (h d : Z) : Prop := 15 < h < 20 /\ weekday d.
Definition is_WE (h d : Z) : Prop := 5 < h < 20 /\ weekend d.

(** The [TOD] cell left by the four masked assignments, the last one
    that applies winning. *)
Definition tod_of (h d : Z) : tod :=
  if between_neither 5 20 h && isin [1; 7] d then WE
  else if between_neither 15 20 h && between 2 6 d then PM
  else if between_neither 9 16 h && between 2 6 d then MD
  else if between_neither 5 10 h && between 2 6 d then AM
  else EV.

(** The row [add_hod_dow_tod_to_dataset] makes of an input row. *)
Definition bucket_row (r : Obs) : Bucketed :=
  let h := dt_hour (DATETIME r) in
  let d := replace 8 1 (dt_dayofweek (DATETIME r) + 2) in
  {| obs := r; HOD := h; DOW := d; TOD := tod_of h d |}.

(* ===================================================================== *)
(** * Sample feeds *)
(* ===================================================================== *)

(** Monday 1970-01-05, 08:00. *)
Definition monday_8am : Z := 4 * ns_per_day + 8 * ns_per_hour.

Definition five_minutes : Z := 300 * 1000000000.

(** Five morning observations of segment X with travel times
    10, 10, 10, 10 and 20, and a sixth without measurements. *)
Definition sample_obs : list Obs :=
  [ mkObs "X" monday_8am (Fin 60) (Fin 10);
    mkObs "X" (monday_8am + 1 * five_minutes) (Fin 60) (Fin 10);
    mkObs "X" (monday_8am + 2 * five_minutes) (Fin 30) (Fin 20);
    mkObs "X" (monday_8am + 3 * five_minutes) (Fin 60) (Fin 10);
    mkObs "X" (monday_8am + 4 * five_minutes) (Fin 60) (Fin 10);
    mkObs "X" (monday_8am + 5 * five_minutes) NaN NaN ].

Definition sample_rows : list Bucketed := add_hod_dow_tod_to_dataset sample_obs.

(** Five morning observations of segment X with travel times
    15, 20, 35, 40 and 50. *)
Definition ramp_obs : list Obs :=
  [ mkObs "X" monday_8am (Fin 60) (Fin 35);
    mkObs "X" (monday_8am + 1 * five_minutes) (Fin 60) (Fin 15);
    mkObs "X" (monday_8am + 2 * five_minutes) (Fin 60) (Fin 50);
    mkObs "X" (monday_8am + 3 * five_minutes) (Fin 60) (Fin 20);
    mkObs "X" (monday_8am + 4 * five_minutes) (Fin 60) (Fin 40) ].

Definition ramp_rows : list Bucketed := add_hod_dow_tod_to_dataset ramp_obs.


(** One all-vehicle observation, and a truck feed with two rows for its
    key. *)
Definition dup_int : list Obs := [ mkObs "X" monday_8am (Fin 55) (Fin 120) ].

Definition dup_trk : list Obs :=
  [ mkObs "X" monday_8am (Fin 50) (Fin 130);
    mkObs "X" monday_8am (Fin 51) (Fin 131) ].

(** A truck feed for [sample_obs]: a measured row, a row without travel
    time, and a row whose key the all-vehicle feed does not have. *)
Definition sample_trk : list Obs :=
  [ mkObs "X" monday_8am (Fin 50) (Fin 12);
    mkObs "X" (monday_8am + 1 * five_minutes) (Fin 45) NaN;
    mkObs "Y" monday_8am (Fin 40) (Fin 200) ].

Definition sample_P : list Reliab :=
  rows_of (run (data_int tie_index_odd sample_obs)).

Definition sample_S : list Reliab :=
  rows_of (run (data_int_trk tie_index_odd sample_P sample_trk)).

Definition dup_P : list Reliab := rows_of (run (data_int tie_index_odd dup_int)).

Definition dup_S : list Reliab :=
  rows_of (run (data_int_trk tie_index_odd dup_P dup_trk)).

(** A truck feed that has no row for the key of [dup_int]. *)
Definition other_trk : list Obs := [ mkObs "Y" monday_8am (Fin 40) (Fin 200) ].

(** Two morning observations of another segment. *)
Definition other_rows : list Bucketed :=
  add_hod_dow_tod_to_dataset
    [ mkObs "Z" monday_8am (Fin 40) (Fin 30);
      mkObs "Z" (monday_8am + 1 * five_minutes) (Fin 30) (Fin 40) ].

(** The two frames the final merge joins, as the main code computes them
    from the two feeds. *)
Definition pipeline_P (tie : Z -> Z -> bool) (ohint : list Obs) : list Reliab :=
  let data := add_hod_dow_tod_to_dataset ohint in
  map (lottr_row tie data 50 80) data.

Definition pipeline_S (tie : Z -> Z -> bool) (ohint ohintrk : list Obs)
  : list Reliab :=
  let data :=
    add_hod_dow_tod_to_dataset (merge_on_keys (map row_key ohint) ohintrk) in
  map (lottr_row tie data 50 95) data.

(** No key occurs twice. *)
Fixpoint keys_distinct (l : list (string * Z)) : bool :=
  match l with
  | [] => true
  | k :: l' => negb (existsb (key_eqb k) l') && keys_distinct l'
  end.

(** The merged row of a joined pair: joined, flagged and imputed. *)
Definition merged_row (j : Reliab * option Reliab) : Merged :=
  impute_row (fillna_FLAG_row (set_FLAG_row (joined_row j))).

(* ===================================================================== *)
(** * Key comparisons decide equality *)
(* ===================================================================== *)

Lemma tod_eqb_eq (a b : tod) : tod_eqb a b = true <-> a = b.
Proof. destruct a, b; simpl; split; intro H; try reflexivity; discriminate H. Qed.

Lemma group_eqb_eq (a b : string * tod) : group_eqb a b = true <-> a = b.
Proof.
  destruct a as [s t], b as [s' t']; unfold group_eqb; simpl.
  rewrite andb_true_iff, String.eqb_eq, tod_eqb_eq.
  split; [intros [-> ->]; reflexivity | intro H; inversion H; auto].
Qed.

Lemma key_eqb_eq (a b : string * Z) : key_eqb a b = true <-> a = b.
Proof.
  destruct a as [s t], b as [s' t']; unfold key_eqb; simpl.
  rewrite andb_true_iff, String.eqb_eq, Z.eqb_eq.
  split; [intros [-> ->]; reflexivity | intro H; inversion H; auto].
Qed.

Lemma group_eqb_refl (a : string * tod) : group_eqb a a = true.
Proof. apply group_eqb_eq; reflexivity. Qed.

Lemma key_eqb_refl (a : string * Z) : key_eqb a a = true.
Proof. apply key_eqb_eq; reflexivity. Qed.

(* ===================================================================== *)
(** * Sorting keeps the observations *)
(* ===================================================================== *)

Lemma insert_sorted_perm (v : fval) (l : list fval) :
  Permutation (v :: l) (insert_sorted v l).
Proof.
  induction l as [|w l IH]; simpl.
  - apply Permutation_refl.
  - destruct (fleb v w).
    + apply Permutation_refl.
    + eapply perm_trans; [apply perm_swap | apply perm_skip, IH].
Qed.

Lemma np_sort_perm (l : list fval) : Permutation l (np_sort l).
Proof.
  induction l as [|v l IH]; simpl.
  - apply perm_nil.
  - eapply perm_trans; [apply perm_skip, IH | apply insert_sorted_perm].
Qed.

Lemma np_sort_length (l : list fval) : List.length (np_sort l) = List.length l.
Proof. symmetry; apply Permutation_length, np_sort_perm. Qed.

Lemma np_sort_In (v : fval) (l : list fval) : In v (np_sort l) -> In v l.
Proof. apply Permutation_in, Permutation_sym, np_sort_perm. Qed.

Lemma fleb_total (a b : fval) :
  isna a = false -> isna b = false -> fleb a b = false -> fleb b a = true.
Proof.
  destruct a as [| |x|], b as [| |y|]; simpl; try discriminate; try reflexivity.
  intros _ _ H. apply Qle_bool_iff.
  destruct (Qlt_le_dec y x) as [Hlt|Hle].
  - apply Qlt_le_weak. exact Hlt.
  - apply Qle_bool_iff in Hle. rewrite Hle in H. discriminate H.
Qed.

Lemma insert_sorted_HdRel (v w : fval) (l : list fval) :
  fleb w v = true -> HdRel (fun a b => fleb a b = true) w l ->
  HdRel (fun a b => fleb a b = true) w (insert_sorted v l).
Proof.
  intros Hwv Hhd. destruct l as [|u l]; simpl.
  - constructor. exact Hwv.
  - destruct (fleb v u); constructor; [exact Hwv|].
    inversion Hhd. assumption.
Qed.

Lemma insert_sorted_Sorted (v : fval) (l : list fval) :
  isna v = false -> Forall (fun w => isna w = false) l ->
  Sorted (fun a b => fleb a b = true) l ->
  Sorted (fun a b => fleb a b = true) (insert_sorted v l).
Proof.
  intros Hv Hl Hs. induction l as [|w l IH]; simpl.
  - repeat constructor.
  - inversion Hl as [|? ? Hw Hl']; subst. inversion Hs as [|? ? Hs' Hhd]; subst.
    destruct (fleb v w) eqn:E.
    + constructor; [exact Hs | constructor; exact E].
    + constructor; [apply IH; assumption|].
      apply insert_sorted_HdRel; [|exact Hhd].
      apply fleb_total; assumption.
Qed.

Lemma insert_sorted_notna (v : fval) (l : list fval) :
  isna v = false -> Forall (fun w => isna w = false) l ->
  Forall (fun w => isna w = false) (insert_sorted v l).
Proof.
  intros Hv Hl.
  apply (Permutation_Forall (insert_sorted_perm v l)). constructor; assumption.
Qed.

(** On an array without NaN, [np_sort] returns it in ascending order. *)
Lemma np_sort_Sorted (l : list fval) :
  Forall (fun w => isna w = false) l ->
  Sorted (fun a b => fleb a b = true) (np_sort l).
Proof.
  induction l as [|v l IH]; simpl; intro H.
  - constructor.
  - inversion H as [|? ? Hv Hl]; subst.
    apply insert_sorted_Sorted; [assumption | | apply IH; assumption].
    apply (Permutation_Forall (np_sort_perm l)). exact Hl.
Qed.

(* ===================================================================== *)
(** * The selected rank *)
(* ===================================================================== *)

(** The rank is a valid position of a non-empty array. *)
Lemma closest_observation_range (tie : Z -> Z -> bool) (n q : Z) :
  0 < n -> 0 <= q <= 100 -> 0 <= closest_observation tie n q < n.
Proof.
  intros Hn Hq. unfold closest_observation.
  set (i := 2 * n * q - 300).
  assert (Hi : i <= 200 * (n - 2) + 100) by (unfold i; nia).
  clearbody i.
  pose proof (Z.div_mod i 200 ltac:(lia)) as Hdm.
  pose proof (Z.mod_pos_bound i 200 ltac:(lia)) as Hmod.
  destruct ((i mod 200 =? 0) && tie n q);
    match goal with |- context [?r <? 0] => destruct (Z.ltb_spec r 0) end; lia.
Qed.


(** Nearest rank: the percentile of a non-empty array is one of its
    elements. *)
Lemma np_percentile_In (tie : Z -> Z -> bool) (x : list fval) (q : Z) :
  x <> [] -> 0 <= q <= 100 -> In (np_percentile tie x q) x.
Proof.
  intros Hx Hq. unfold np_percentile.
  apply np_sort_In, nth_In. rewrite np_sort_length.
  assert (Hn : 0 < Z.of_nat (List.length x))
    by (destruct x; [contradiction | simpl; lia]).
  pose proof (closest_observation_range tie Hn Hq). lia.
Qed.

(* ===================================================================== *)
(** * Left merges *)
(* ===================================================================== *)

Lemma filter_none {A : Type} (f : A -> bool) (l : list A) :
  (forall a, In a l -> f a = false) -> filter f l = [].
Proof.
  induction l as [|a l IH]; simpl; intro H; [reflexivity|].
  rewrite (H a (or_introl eq_refl)). apply IH. intros b Hb. apply H. now right.
Qed.

Lemma flat_map_ext_In {A B : Type} (f g : A -> list B) (l : list A) :
  (forall a, In a l -> f a = g a) -> flat_map f l = flat_map g l.
Proof.
  induction l as [|a l IH]; simpl; intro H; [reflexivity|].
  rewrite (H a (or_introl eq_refl)). f_equal. apply IH.
  intros b Hb. apply H. now right.
Qed.

Section MergeLeft.

Context {L R K : Type}.
Variable eqb : K -> K -> bool.
Variable kl : L -> K.
Variable kr : R -> K.
Hypothesis eqb_eq : forall a b, eqb a b = true <-> a = b.

Lemma merge_left_cons (l : L) (left : list L) (right : list R) :
  merge_left eqb kl kr (l :: left) right
  = matches eqb kl kr right l ++ merge_left eqb kl kr left right.
Proof. reflexivity. Qed.

Lemma matches_fst (right : list R) (l : L) (j : L * option R) :
  In j (matches eqb kl kr right l) -> fst j = l.
Proof.
  unfold matches. destruct (filter _ right) as [|r ms].
  - intros [<-|[]]. reflexivity.
  - intro H. apply in_map_iff in H. destruct H as [r' [<- _]]. reflexivity.
Qed.

Lemma matches_nonempty (right : list R) (l : L) : matches eqb kl kr right l <> [].
Proof.
  unfold matches. destruct (filter _ right); simpl; discriminate.
Qed.

Lemma matches_Some (right : list R) (l : L) (r : R) :
  In (l, Some r) (matches eqb kl kr right l) <-> In r right /\ kl l = kr r.
Proof.
  unfold matches.
  destruct (filter (fun r => eqb (kl l) (kr r)) right) as [|r0 ms] eqn:E.
  - split.
    + intros [H|[]]. discriminate H.
    + intros [Hin Hk].
      assert (Hf : In r (filter (fun r => eqb (kl l) (kr r)) right))
        by (apply filter_In; split; [assumption | now apply eqb_eq]).
      rewrite E in Hf. destruct Hf.
  - rewrite <- E. rewrite in_map_iff. split.
    + intros [r' [Heq Hin]]. inversion Heq; subst r'.
      apply filter_In in Hin. destruct Hin as [Hin Hk].
      split; [assumption | now apply eqb_eq].
    + intros [Hin Hk]. exists r. split; [reflexivity|].
      apply filter_In. split; [assumption | now apply eqb_eq].
Qed.

Lemma matches_None (right : list R) (l : L) :
  In (l, None) (matches eqb kl kr right l) <-> (forall r, In r right -> kl l <> kr r).
Proof.
  unfold matches.
  destruct (filter (fun r => eqb (kl l) (kr r)) right) as [|r0 ms] eqn:E.
  - split; [|intros _; now left].
    intros _ r Hin Hk.
    assert (Hf : In r (filter (fun r => eqb (kl l) (kr r)) right))
      by (apply filter_In; split; [assumption | now apply eqb_eq]).
    rewrite E in Hf. destruct Hf.
  - split.
    + intro H. apply in_map_iff in H. destruct H as [r' [Heq _]]. discriminate Heq.
    + intro H. exfalso.
      assert (Hf : In r0 (filter (fun r => eqb (kl l) (kr r)) right))
        by (rewrite E; now left).
      apply filter_In in Hf. destruct Hf as [Hin Hk].
      apply (H r0 Hin). now apply eqb_eq.
Qed.

(** A joined row comes from a left row; its right part, if any, is a
    right row of the same key. *)
Lemma merge_left_In (left : list L) (right : list R) (j : L * option R) :
  In j (merge_left eqb kl kr left right) <->
  In (fst j) left /\ In j (matches eqb kl kr right (fst j)).
Proof.
  unfold merge_left. rewrite in_flat_map. split.
  - intros [l [Hl Hj]]. rewrite (matches_fst _ _ _ Hj). auto.
  - intros [Hl Hj]. exists (fst j). auto.
Qed.

(** Every left row is in the output. *)
Lemma merge_left_covers (left : list L) (right : list R) (l : L) :
  In l left -> exists o, In (l, o) (merge_left eqb kl kr left right).
Proof.
  intro Hl. destruct (matches eqb kl kr right l) as [|j ms] eqn:E.
  - exfalso. eapply matches_nonempty, E.
  - assert (Hj : In j (matches eqb kl kr right l)) by (rewrite E; now left).
    pose proof (matches_fst _ _ _ Hj) as Hfst.
    destruct j as [l' o]. simpl in Hfst. subst l'.
    exists o. apply merge_left_In. simpl. auto.
Qed.

(** With unique right keys at most one right row matches. *)
Lemma filter_unique_key (right : list R) (k : K) :
  NoDup (map kr right) ->
  filter (fun r => eqb k (kr r)) right
  = match find (fun r => eqb k (kr r)) right with
    | Some r => [r]
    | None => []
    end.
Proof.
  induction right as [|r right IH]; simpl; intro Hnd; [reflexivity|].
  inversion Hnd as [|? ? Hnotin Hnd']; subst.
  destruct (eqb k (kr r)) eqn:E.
  - f_equal. apply filter_none. intros r' Hr'.
    destruct (eqb k (kr r')) eqn:E'; [|reflexivity].
    exfalso. apply Hnotin. apply eqb_eq in E, E'.
    rewrite <- E, E'. now apply in_map.
  - now apply IH.
Qed.

(** With unique right keys a left merge keeps the left rows as they are,
    one output row each. *)
Lemma merge_left_unique (left : list L) (right : list R) :
  NoDup (map kr right) ->
  merge_left eqb kl kr left right
  = map (fun l => (l, find (fun r => eqb (kl l) (kr r)) right)) left.
Proof.
  intro Hnd. induction left as [|l left IH]; [reflexivity|].
  rewrite merge_left_cons, IH. simpl. unfold matches.
  rewrite (filter_unique_key _ _ Hnd).
  destruct (find _ right); reflexivity.
Qed.

(** Right rows whose key no left row has play no part. *)
Lemma merge_left_restrict (left : list L) (right : list R) :
  merge_left eqb kl kr left right
  = merge_left eqb kl kr left
      (filter (fun r => existsb (fun l => eqb (kl l) (kr r)) left) right).
Proof.
  unfold merge_left. apply flat_map_ext_In. intros l Hl. unfold matches.
  replace (filter (fun r => eqb (kl l) (kr r))
             (filter (fun r => existsb (fun l0 => eqb (kl l0) (kr r)) left) right))
    with (filter (fun r => eqb (kl l) (kr r)) right); [reflexivity|].
  clear - Hl. induction right as [|r right IH]; simpl; [reflexivity|].
  destruct (eqb (kl l) (kr r)) eqn:E.
  - assert (Hex : existsb (fun l0 => eqb (kl l0) (kr r)) left = true)
      by (apply existsb_exists; exists l; auto).
    rewrite Hex. simpl. rewrite E. now f_equal.
  - destruct (existsb _ left); simpl; [rewrite E|]; exact IH.
Qed.

End MergeLeft.

(* ===================================================================== *)
(** * [add_lottr_to_dataset], run *)
(* ===================================================================== *)

Lemma add_lottr_valid (tie : Z -> Z -> bool) (data : list Bucketed) (q1 q2 : Z)
    (log : list FrameOp) :
  out_of_range q1 q2 = false ->
  add_lottr_to_dataset tie data q1 q2 log
  = (Ok (lottr_rows tie data q1 q2), log ++ lottr_log).
Proof.
  intro H. unfold add_lottr_to_dataset. rewrite H.
  unfold bind, frame_op, ret, lottr_rows, lottr_log.
  repeat rewrite <- app_assoc. reflexivity.
Qed.

Lemma add_lottr_invalid (tie : Z -> Z -> bool) (data : list Bucketed) (q1 q2 : Z)
    (log : list FrameOp) :
  out_of_range q1 q2 = true ->
  add_lottr_to_dataset tie data q1 q2 log
  = (Raised "q1 and q2 must be between 0 and 100.", log).
Proof.
  intro H. unfold add_lottr_to_dataset. rewrite H. reflexivity.
Qed.

Lemma out_of_range_false (q1 q2 : Z) :
  out_of_range q1 q2 = false <-> (0 <= q1 <= 100 /\ 0 <= q2 <= 100).
Proof.
  unfold out_of_range. rewrite !orb_false_iff.
  rewrite !Z.ltb_ge, !Z.gtb_ltb, !Z.ltb_ge. lia.
Qed.

Lemma out_of_range_true (q1 q2 : Z) :
  out_of_range q1 q2 = true <-> ~ (0 <= q1 <= 100 /\ 0 <= q2 <= 100).
Proof.
  rewrite <- out_of_range_false. destruct (out_of_range q1 q2); split; congruence.
Qed.

(** The groups of [data_perc] have distinct keys. *)
Lemma groupby_agg_keys (tie : Z -> Z -> bool) (data : list Bucketed) (q1 q2 : Z) :
  map perc_key (groupby_agg tie data q1 q2)
  = nodup group_eq_dec (map group_key data).
Proof.
  unfold groupby_agg. rewrite map_map.
  rewrite <- (map_id (nodup _ _)) at 2. apply map_ext.
  intros [s t]. reflexivity.
Qed.

Lemma groupby_agg_NoDup (tie : Z -> Z -> bool) (data : list Bucketed) (q1 q2 : Z) :
  NoDup (map perc_key (groupby_agg tie data q1 q2)).
Proof. rewrite groupby_agg_keys. apply NoDup_nodup. Qed.

(** A group has values exactly when its key occurs. *)
Lemma group_TT_SEC_nil (data : list Bucketed) (k : string * tod) :
  group_TT_SEC data k = [] <-> ~ In k (map group_key data).
Proof.
  unfold group_TT_SEC. induction data as [|r data IH]; simpl.
  - split; [intros _ [] | reflexivity].
  - destruct (group_eqb (group_key r) k) eqn:E; simpl.
    + apply group_eqb_eq in E. split; [discriminate | intro H; exfalso; auto].
    + rewrite IH. split.
      * intros H [Heq|Hin]; [|auto].
        rewrite Heq, group_eqb_refl in E. discriminate E.
      * intros H Hin. apply H. now right.
Qed.

Lemma find_group (mk : string * tod -> Perc) (keys : list (string * tod))
    (k : string * tod) :
  (forall k', perc_key (mk k') = k') ->
  find (fun p => group_eqb k (perc_key p)) (map mk keys)
  = if in_dec group_eq_dec k keys then Some (mk k) else None.
Proof.
  intro Hmk. induction keys as [|k' keys IH]; simpl; [reflexivity|].
  rewrite Hmk. destruct (group_eqb k k') eqn:E.
  - apply group_eqb_eq in E. subst k'.
    destruct (group_eq_dec k k) as [_|Hne]; [reflexivity | congruence].
  - rewrite IH. destruct (group_eq_dec k' k) as [Heq|Hne].
    + subst k'. rewrite group_eqb_refl in E. discriminate E.
    + destruct (in_dec group_eq_dec k keys); reflexivity.
Qed.

(** The left merge with [data_perc], row by row. *)
Lemma lottr_rows_spec (tie : Z -> Z -> bool) (data : list Bucketed) (q1 q2 : Z) :
  lottr_rows tie data q1 q2 = map (lottr_row tie data q1 q2) data.
Proof.
  unfold lottr_rows.
  rewrite (@merge_left_unique _ _ _ group_eqb group_key perc_key group_eqb_eq
             data _ (groupby_agg_NoDup tie (dropna_TT_SEC data) q1 q2)).
  rewrite map_map. apply map_ext. intro r.
  unfold groupby_agg. rewrite find_group by (intros [s t]; reflexivity).
  unfold lottr_row, row_percentile, group_values, assign_LOTTR. simpl.
  destruct (in_dec group_eq_dec (group_key r)
              (nodup group_eq_dec (map group_key (dropna_TT_SEC data))))
    as [Hin|Hnin]; simpl.
  - apply nodup_In in Hin.
    destruct (group_TT_SEC (dropna_TT_SEC data) (group_key r)) eqn:E.
    + exfalso. apply group_TT_SEC_nil in E. auto.
    + reflexivity.
  - assert (E : group_TT_SEC (dropna_TT_SEC data) (group_key r) = []).
    { apply group_TT_SEC_nil. intro H. apply Hnin. now apply nodup_In. }
    rewrite E. reflexivity.
Qed.

(* ===================================================================== *)
(** * The Time Bucketer, row by row *)
(* ===================================================================== *)

Lemma add_hod_dow_tod_rows (data : list Obs) :
  add_hod_dow_tod_to_dataset data = map bucket_row data.
Proof.
  unfold add_hod_dow_tod_to_dataset, loc_set_TOD. rewrite !map_map.
  apply map_ext. intro r. unfold bucket_row, tod_of. simpl.
  set (h := dt_hour (DATETIME r)).
  set (d := replace 8 1 (dt_dayofweek (DATETIME r) + 2)).
  destruct (between_neither 5 10 h && between 2 6 d); simpl;
    destruct (between_neither 9 16 h && between 2 6 d); simpl;
    destruct (between_neither 15 20 h && between 2 6 d); simpl;
    destruct (between_neither 5 20 h && ((d =? 1) || ((d =? 7) || false)));
    reflexivity.
Qed.

(** Hours are 0..23 and days of week 1..7, Sunday being 1. *)
Lemma bucket_row_ranges (r : Obs) :
  0 <= HOD (bucket_row r) <= 23 /\ 1 <= DOW (bucket_row r) <= 7.
Proof.
  unfold bucket_row, dt_hour, dt_dayofweek, replace. simpl. split.
  - pose proof (Z.mod_pos_bound (DATETIME r / ns_per_hour) 24 ltac:(lia)). lia.
  - pose proof (Z.mod_pos_bound (DATETIME r / ns_per_day + 3) 7 ltac:(lia)) as H.
    destruct (Z.eqb_spec ((DATETIME r / ns_per_day + 3) mod 7 + 2) 8); lia.
Qed.

Lemma add_hod_dow_tod_obs (data : list Obs) :
  map obs (add_hod_dow_tod_to_dataset data) = data.
Proof.
  rewrite add_hod_dow_tod_rows, map_map. simpl. apply map_id.
Qed.

Lemma mask_true (lo hi h : Z) (wd : bool) :
  between_neither lo hi h && wd = true <-> lo < h < hi /\ wd = true.
Proof.
  unfold between_neither. rewrite !andb_true_iff, !Z.ltb_lt. tauto.
Qed.

Lemma between_true (lo hi d : Z) : between lo hi d = true <-> lo <= d <= hi.
Proof. unfold between. rewrite andb_true_iff, !Z.leb_le. tauto. Qed.

Lemma isin_1_7_true (d : Z) : isin [1; 7] d = true <-> weekend d.
Proof.
  unfold isin, weekend. simpl. rewrite !orb_true_iff, !Z.eqb_eq.
  intuition discriminate.
Qed.

Lemma mask_false (lo hi h : Z) (wd : bool) :
  between_neither lo hi h && wd = false <-> ~ (lo < h < hi /\ wd = true).
Proof.
  rewrite <- mask_true. destruct (between_neither lo hi h && wd); split; congruence.
Qed.

(** The rule table: each time of day is assigned exactly under its
    condition, and [EV] is what is left. *)
Lemma tod_of_spec (h d : Z) :
  (tod_of h d = AM <-> is_AM h d) /\
  (tod_of h d = MD <-> is_MD h d) /\
  (tod_of h d = PM <-> is_PM h d) /\
  (tod_of h d = WE <-> is_WE h d) /\
  (tod_of h d = EV <->
   ~ is_AM h d /\ ~ is_MD h d /\ ~ is_PM h d /\ ~ is_WE h d).
Proof.
  unfold tod_of, is_AM, is_MD, is_PM, is_WE.
  rewrite <- (isin_1_7_true d).
  unfold weekday. rewrite <- !(between_true 2 6 d).
  destruct (between_neither 5 20 h && isin [1; 7] d) eqn:E4;
    [apply mask_true in E4 | apply mask_false in E4];
  (destruct (between_neither 15 20 h && between 2 6 d) eqn:E3;
    [apply mask_true in E3 | apply mask_false in E3]);
  (destruct (between_neither 9 16 h && between 2 6 d) eqn:E2;
    [apply mask_true in E2 | apply mask_false in E2]);
  (destruct (between_neither 5 10 h && between 2 6 d) eqn:E1;
    [apply mask_true in E1 | apply mask_false in E1]);
  assert (Hx : isin [1; 7] d = true -> between 2 6 d = true -> False)
    by (rewrite isin_1_7_true, between_true; unfold weekend; lia);
  repeat split; intros; try discriminate; try reflexivity;
    try tauto; try (exfalso; intuition lia); intuition lia.
Qed.

Lemma Forall2_map_self {A B : Type} (P : A -> B -> Prop) (f : A -> B)
    (l : list A) :
  (forall a, In a l -> P a (f a)) -> Forall2 P l (map f l).
Proof.
  induction l as [|a l IH]; simpl; intro H; constructor.
  - apply H. now left.
  - apply IH. intros b Hb. apply H. now right.
Qed.

(** C1.  The Time Bucketer returns one row per input row, in order, and
    the [TOD] cell of each is decided by its [HOD] and [DOW] cells alone:
    AM exactly when 5 < hour < 10 on days 2..6, MD exactly when
    9 < hour < 16 on days 2..6, PM exactly when 15 < hour < 20 on days
    2..6, WE exactly when 5 < hour < 20 on days 1 and 7, and EV exactly in
    every other case.  So a weekday hour 9 is AM, 10 is MD, 16 is PM, and
    the weekday hours 5 and 20 are EV. *)
Theorem C1_time_of_day_rules (data : list Obs) :
  Forall2
    (fun r b =>
       obs b = r /\
       HOD b = dt_hour (DATETIME r) /\
       DOW b = replace 8 1 (dt_dayofweek (DATETIME r) + 2) /\
       (TOD b = AM <-> is_AM (HOD b) (DOW b)) /\
       (TOD b = MD <-> is_MD (HOD b) (DOW b)) /\
       (TOD b = PM <-> is_PM (HOD b) (DOW b)) /\
       (TOD b = WE <-> is_WE (HOD b) (DOW b)) /\
       (TOD b = EV <->
        ~ is_AM (HOD b) (DOW b) /\ ~ is_MD (HOD b) (DOW b) /\
        ~ is_PM (HOD b) (DOW b) /\ ~ is_WE (HOD b) (DOW b)) /\
       (weekday (DOW b) ->
        (HOD b = 9 -> TOD b = AM) /\
        (HOD b = 10 -> TOD b = MD) /\
        (HOD b = 15 -> TOD b = MD) /\
        (HOD b = 16 -> TOD b = PM) /\
        (HOD b <= 5 \/ 20 <= HOD b -> TOD b = EV)))
    data (add_hod_dow_tod_to_dataset data).
Proof.
  rewrite add_hod_dow_tod_rows. apply Forall2_map_self. intros r _.
  unfold bucket_row. simpl.
  set (h := dt_hour (DATETIME r)).
  set (d := replace 8 1 (dt_dayofweek (DATETIME r) + 2)).
  destruct (tod_of_spec h d) as (HAM & HMD & HPM & HWE & HEV).
  repeat (split; [first [reflexivity | assumption]|]).
  intro Hwd. repeat split.
  - intro H9. apply HAM. unfold is_AM. split; [lia | assumption].
  - intro H10. apply HMD. unfold is_MD. split; [lia | assumption].
  - intro H15. apply HMD. unfold is_MD. split; [lia | assumption].
  - intro H16. apply HPM. unfold is_PM. split; [lia | assumption].
  - intro Hout. apply HEV. unfold is_AM, is_MD, is_PM, is_WE. lia.
Qed.

(* ===================================================================== *)
(** * Percentile arguments *)
(* ===================================================================== *)

(** C8.  A call raises exactly when [q1] or [q2] is outside 0..100, both
    ends allowed; it raises with the log of frame operations as it found
    it, so before any copy, drop, grouping, percentile or merge, all of
    which a call that does not raise logs.  Calls with -1 or 101 in either
    position raise from the empty log. *)
Theorem C8_percentile_validation (tie : Z -> Z -> bool) (data : list Bucketed)
    (q1 q2 : Z) (log : list FrameOp) :
  (out_of_range q1 q2 = true <-> ~ (0 <= q1 <= 100 /\ 0 <= q2 <= 100)) /\
  add_lottr_to_dataset tie data q1 q2 log
  = (if out_of_range q1 q2
     then (Raised "q1 and q2 must be between 0 and 100.", log)
     else (Ok (lottr_rows tie data q1 q2), log ++ lottr_log)) /\
  ((exists msg, fst (add_lottr_to_dataset tie data q1 q2 log) = Raised msg)
   <-> ~ (0 <= q1 <= 100 /\ 0 <= q2 <= 100)) /\
  run (add_lottr_to_dataset tie data (-1) q2)
  = (Raised "q1 and q2 must be between 0 and 100.", []) /\
  run (add_lottr_to_dataset tie data 101 q2)
  = (Raised "q1 and q2 must be between 0 and 100.", []) /\
  run (add_lottr_to_dataset tie data q1 (-1))
  = (Raised "q1 and q2 must be between 0 and 100.", []) /\
  run (add_lottr_to_dataset tie data q1 101)
  = (Raised "q1 and q2 must be between 0 and 100.", []).
Proof.
  assert (Hrun : add_lottr_to_dataset tie data q1 q2 log
    = (if out_of_range q1 q2
       then (Raised "q1 and q2 must be between 0 and 100.", log)
       else (Ok (lottr_rows tie data q1 q2), log ++ lottr_log))).
  { destruct (out_of_range q1 q2) eqn:E.
    - now apply add_lottr_invalid.
    - now apply add_lottr_valid. }
  split; [apply out_of_range_true|]. split; [exact Hrun|]. split.
  - rewrite Hrun, <- out_of_range_true.
    destruct (out_of_range q1 q2); simpl; split.
    + reflexivity.
    + intros _. eexists; reflexivity.
    + intros [msg H]. discriminate H.
    + discriminate.
  - unfold run.
    split; [|split; [|split]]; apply add_lottr_invalid; unfold out_of_range.
    + reflexivity.
    + reflexivity.
    + apply orb_true_r.
    + apply orb_true_r.
Qed.

(* ===================================================================== *)
(** * The Reliability Calculator, row by row *)
(* ===================================================================== *)

Lemma add_lottr_Ok_inv (tie : Z -> Z -> bool) (data : list Bucketed) (q1 q2 : Z)
    (log log' : list FrameOp) (rows : list Reliab) :
  add_lottr_to_dataset tie data q1 q2 log = (Ok rows, log') ->
  out_of_range q1 q2 = false /\
  rows = map (lottr_row tie data q1 q2) data /\
  log' = log ++ lottr_log.
Proof.
  intro H. destruct (out_of_range q1 q2) eqn:E.
  - rewrite add_lottr_invalid in H by exact E. discriminate H.
  - rewrite add_lottr_valid, lottr_rows_spec in H by exact E.
    inversion H. auto.
Qed.

Lemma filter_filter {A : Type} (f g : A -> bool) (l : list A) :
  filter f (filter g l) = filter (fun a => g a && f a) l.
Proof.
  induction l as [|a l IH]; simpl; [reflexivity|].
  destruct (g a); simpl; [destruct (f a)|]; rewrite IH; reflexivity.
Qed.

(** The values of a row's group: the travel times of the rows of that
    group that have one. *)
Lemma group_values_filter (data : list Bucketed) (b : Bucketed) :
  group_values data b
  = map (fun o => TT_SEC (obs o))
        (filter (fun o => negb (isna (TT_SEC (obs o)))
                          && group_eqb (group_key o) (group_key b))
                data).
Proof.
  unfold group_values, group_TT_SEC, dropna_TT_SEC.
  rewrite filter_filter. reflexivity.
Qed.

Lemma group_values_In (data : list Bucketed) (b : Bucketed) (v : fval) :
  In v (group_values data b) <->
  exists o, In o data /\ group_key o = group_key b /\
            isna (TT_SEC (obs o)) = false /\ v = TT_SEC (obs o).
Proof.
  rewrite group_values_filter, in_map_iff. split.
  - intros [o [Hv Ho]]. apply filter_In in Ho. destruct Ho as [Hin Hc].
    apply andb_true_iff in Hc. destruct Hc as [Hna Hk].
    exists o. rewrite negb_true_iff in Hna. apply group_eqb_eq in Hk. auto.
  - intros [o (Hin & Hk & Hna & Hv)]. exists o. split; [auto|].
    apply filter_In. split; [assumption|].
    rewrite Hna, Hk, group_eqb_refl. reflexivity.
Qed.

Lemma row_percentile_In (tie : Z -> Z -> bool) (data : list Bucketed) (q : Z)
    (b : Bucketed) :
  0 <= q <= 100 -> group_values data b <> [] ->
  In (row_percentile tie data q b) (group_values data b).
Proof.
  intros Hq Hne. unfold row_percentile.
  destruct (group_values data b) as [|v x] eqn:E; [contradiction|].
  apply np_percentile_In; assumption.
Qed.

Lemma row_percentile_observed (tie : Z -> Z -> bool) (data : list Bucketed) (q : Z)
    (b : Bucketed) :
  0 <= q <= 100 ->
  (exists o, In o data /\ group_key o = group_key b /\
             isna (TT_SEC (obs o)) = false) ->
  exists o, In o data /\ group_key o = group_key b /\
            isna (TT_SEC (obs o)) = false /\
            row_percentile tie data q b = TT_SEC (obs o).
Proof.
  intros Hq [o (Hin & Hk & Hna)].
  apply group_values_In, row_percentile_In; [assumption|].
  intro E.
  assert (Hv : In (TT_SEC (obs o)) (group_values data b))
    by (apply group_values_In; exists o; auto).
  rewrite E in Hv. destruct Hv.
Qed.

(** C2.  For percentiles [q1] and [q2] in 0..100 the call returns one row
    for every input row, in order, and so a row for every (tmc_code, TOD)
    group of the input; on every row whose group has an input row with a
    travel time, each of the two percentile cells is the travel time of
    some input row of that group: an observed value, never one between two
    observations. *)
Theorem C2_percentiles_are_observations (tie : Z -> Z -> bool)
    (data : list Bucketed) (q1 q2 : Z) (log : list FrameOp) :
  0 <= q1 <= 100 -> 0 <= q2 <= 100 ->
  exists rows log',
    add_lottr_to_dataset tie data q1 q2 log = (Ok rows, log') /\
    map bkt rows = data /\
    Forall
      (fun r =>
         (exists o, In o data /\ group_key o = group_key (bkt r) /\
                    isna (TT_SEC (obs o)) = false) ->
         (exists o1, In o1 data /\ group_key o1 = group_key (bkt r) /\
                     isna (TT_SEC (obs o1)) = false /\
                     TTQ1P r = TT_SEC (obs o1)) /\
         (exists o2, In o2 data /\ group_key o2 = group_key (bkt r) /\
                     isna (TT_SEC (obs o2)) = false /\
                     TTQ2P r = TT_SEC (obs o2)))
      rows.
Proof.
  intros Hq1 Hq2.
  exists (lottr_rows tie data q1 q2), (log ++ lottr_log). split; [|split].
  - apply add_lottr_valid, out_of_range_false. auto.
  - rewrite lottr_rows_spec, map_map. simpl. apply map_id.
  - rewrite lottr_rows_spec. apply Forall_forall. intros r Hr.
    apply in_map_iff in Hr. destruct Hr as [b [<- _]]. simpl.
    intro Hobs. split; apply row_percentile_observed; assumption.
Qed.

(** The sample rows with percentiles 50 and 80. *)
Lemma C2_percentiles_are_observations_witness :
  exists rows log',
    add_lottr_to_dataset tie_index_odd sample_rows 50 80 [] = (Ok rows, log') /\
    map bkt rows = sample_rows /\
    Forall
      (fun r =>
         (exists o, In o sample_rows /\ group_key o = group_key (bkt r) /\
                    isna (TT_SEC (obs o)) = false) ->
         (exists o1, In o1 sample_rows /\ group_key o1 = group_key (bkt r) /\
                     isna (TT_SEC (obs o1)) = false /\
                     TTQ1P r = TT_SEC (obs o1)) /\
         (exists o2, In o2 sample_rows /\ group_key o2 = group_key (bkt r) /\
                     isna (TT_SEC (obs o2)) = false /\
                     TTQ2P r = TT_SEC (obs o2)))
      rows.
Proof.
  apply (@C2_percentiles_are_observations tie_index_odd sample_rows 50 80 []);
    lia.
Defined.

(* ===================================================================== *)
(** * Missing travel times *)
(* ===================================================================== *)

(** C5.  A call that returns gives back the input rows, each once and in
    order, with three cells added.  The percentiles of a row are computed
    from the travel times of the rows of its (tmc_code, TOD) group that have
    one, the rows without a travel time left out; when the group has no
    such row, both percentile cells are NaN. *)
Theorem C5_missing_travel_times (tie : Z -> Z -> bool) (data : list Bucketed)
    (q1 q2 : Z) (log log' : list FrameOp) (rows : list Reliab) :
  add_lottr_to_dataset tie data q1 q2 log = (Ok rows, log') ->
  map bkt rows = data /\
  Forall
    (fun r =>
       let x :=
         map (fun o => TT_SEC (obs o))
             (filter (fun o => negb (isna (TT_SEC (obs o)))
                               && group_eqb (group_key o) (group_key (bkt r)))
                     data) in
       (x <> [] ->
        TTQ1P r = np_percentile tie x q1 /\ TTQ2P r = np_percentile tie x q2) /\
       (x = [] -> TTQ1P r = NaN /\ TTQ2P r = NaN) /\
       ((forall o, In o data -> group_key o = group_key (bkt r) ->
                   isna (TT_SEC (obs o)) = true) ->
        TTQ1P r = NaN /\ TTQ2P r = NaN))
    rows.
Proof.
  intro H. apply add_lottr_Ok_inv in H. destruct H as (_ & -> & _). split.
  - rewrite map_map. simpl. apply map_id.
  - apply Forall_forall. intros r Hr.
    apply in_map_iff in Hr. destruct Hr as [b [<- _]]. simpl.
    unfold row_percentile. rewrite group_values_filter.
    set (x := map _ (filter _ data)).
    assert (Hnil : x = [] -> row_percentile tie data q1 b = NaN /\
                             row_percentile tie data q2 b = NaN).
    { intro E. unfold row_percentile. rewrite group_values_filter.
      fold x. rewrite E. auto. }
    unfold row_percentile in Hnil. rewrite group_values_filter in Hnil.
    fold x in Hnil.
    split; [|split].
    + intro Hne. destruct x; [contradiction | auto].
    + exact Hnil.
    + intro Hall. apply Hnil. destruct x as [|v x'] eqn:E; [reflexivity|].
      exfalso.
      assert (Hv : In v (group_values data b))
        by (rewrite group_values_filter; fold x; rewrite E; now left).
      apply group_values_In in Hv. destruct Hv as [o (Hin & Hk & Hna & _)].
      rewrite (Hall o Hin Hk) in Hna. discriminate Hna.
Qed.

(** The sample rows, one of them without travel time. *)
Lemma C5_missing_travel_times_witness :
  map bkt (lottr_rows tie_index_odd sample_rows 50 80) = sample_rows /\
  Forall
    (fun r =>
       let x :=
         map (fun o => TT_SEC (obs o))
             (filter (fun o => negb (isna (TT_SEC (obs o)))
                               && group_eqb (group_key o) (group_key (bkt r)))
                     sample_rows) in
       (x <> [] ->
        TTQ1P r = np_percentile tie_index_odd x 50 /\
        TTQ2P r = np_percentile tie_index_odd x 80) /\
       (x = [] -> TTQ1P r = NaN /\ TTQ2P r = NaN) /\
       ((forall o, In o sample_rows -> group_key o = group_key (bkt r) ->
                   isna (TT_SEC (obs o)) = true) ->
        TTQ1P r = NaN /\ TTQ2P r = NaN))
    (lottr_rows tie_index_odd sample_rows 50 80).
Proof.
  apply (@C5_missing_travel_times tie_index_odd sample_rows 50 80 []
           ([] ++ lottr_log) (lottr_rows tie_index_odd sample_rows 50 80)).
  apply add_lottr_valid. reflexivity.
Defined.

(* ===================================================================== *)
(** * The nearest rank *)
(* ===================================================================== *)







(* ===================================================================== *)
(** * The Merger/Imputer, row by row *)
(* ===================================================================== *)

Lemma Forall2_map_map {A B C : Type} (R : B -> C -> Prop) (f : A -> B)
    (g : A -> C) (l : list A) :
  (forall a, In a l -> R (f a) (g a)) -> Forall2 R (map f l) (map g l).
Proof.
  induction l as [|a l IH]; simpl; intro H; constructor.
  - apply H. now left.
  - apply IH. intros b Hb. apply H. now right.
Qed.

Lemma merge_impute_rows (P S : list Reliab) :
  merge_impute P S
  = map merged_row (merge_left key_eqb reliab_key reliab_key P S).
Proof.
  unfold merge_impute, flagged, impute, fillna_FLAG, set_FLAG, join_trk.
  rewrite !map_map. reflexivity.
Qed.

Lemma flagged_rows (P S : list Reliab) :
  flagged P S
  = map (fun j => fillna_FLAG_row (set_FLAG_row (joined_row j)))
        (merge_left key_eqb reliab_key reliab_key P S).
Proof.
  unfold flagged, fillna_FLAG, set_FLAG, join_trk.
  rewrite !map_map. reflexivity.
Qed.

(** A row whose joined truck travel time is missing: flagged 1, with the
    all-vehicle speed and travel time in the truck cells. *)
Lemma merged_row_missing (j : Reliab * option Reliab) :
  isna (joined (fun s => TT_SEC (reliab_obs s)) (snd j)) = true ->
  merged_row j
  = {| veh := fst j;
       TRK_MPH := MPH (reliab_obs (fst j));
       TRK_TT_SEC := TT_SEC (reliab_obs (fst j));
       TRK_TTQ1P := joined TTQ1P (snd j);
       TRK_TTQ2P := joined TTQ2P (snd j);
       TRK_LOTTR := joined LOTTR (snd j);
       FLAG := Some 1 |}.
Proof.
  intro H. unfold merged_row, impute_row, fillna_FLAG_row, set_FLAG_row.
  simpl. rewrite H. simpl. rewrite H. reflexivity.
Qed.

(** A row whose joined truck travel time is there: flagged 0, the truck
    cells as joined. *)
Lemma merged_row_measured (j : Reliab * option Reliab) :
  isna (joined (fun s => TT_SEC (reliab_obs s)) (snd j)) = false ->
  merged_row j = with_FLAG (Some 0) (joined_row j).
Proof.
  intro H. unfold merged_row, impute_row, fillna_FLAG_row, set_FLAG_row.
  simpl. rewrite H. simpl. rewrite H. reflexivity.
Qed.

Lemma merged_row_veh (j : Reliab * option Reliab) : veh (merged_row j) = fst j.
Proof.
  destruct (isna (joined (fun s => TT_SEC (reliab_obs s)) (snd j))) eqn:E.
  - rewrite merged_row_missing by exact E. reflexivity.
  - rewrite merged_row_measured by exact E. reflexivity.
Qed.

Lemma merged_row_FLAG (j : Reliab * option Reliab) :
  (FLAG (merged_row j) = Some 1 <-> isna (TRK_TT_SEC (joined_row j)) = true) /\
  (FLAG (merged_row j) = Some 0 <-> isna (TRK_TT_SEC (joined_row j)) = false).
Proof.
  simpl. destruct (isna (joined (fun s => TT_SEC (reliab_obs s)) (snd j))) eqn:E.
  - rewrite merged_row_missing by exact E. simpl.
    split; split; intro H; try reflexivity; discriminate H.
  - rewrite merged_row_measured by exact E. simpl.
    split; split; intro H; try reflexivity; discriminate H.
Qed.

Lemma map_veh_matched (p : Reliab) (ms : list Reliab) :
  map (fun j => veh (merged_row j)) (map (fun s => (p, Some s)) ms)
  = repeat p (List.length ms).
Proof.
  induction ms as [|s ms IH]; [reflexivity|].
  cbn [map List.length repeat]. rewrite merged_row_veh, IH. reflexivity.
Qed.

(** The all-vehicle parts of the merged rows of one all-vehicle row. *)
Lemma map_veh_matches (S : list Reliab) (p : Reliab) :
  map (fun j => veh (merged_row j)) (matches key_eqb reliab_key reliab_key S p)
  = repeat p (Nat.max 1 (List.length
                           (filter (fun s => key_eqb (reliab_key p) (reliab_key s))
                                   S))).
Proof.
  unfold matches.
  destruct (filter (fun s => key_eqb (reliab_key p) (reliab_key s)) S)
    as [|s ms] eqn:E.
  - cbn [map]. rewrite merged_row_veh. reflexivity.
  - rewrite map_veh_matched. reflexivity.
Qed.

(** C6, as the code has it.  The merge is a left join on (tmc_code,
    DATETIME): an all-vehicle row is in the merged frame once for every
    truck row of its key, and once when there is none.  So when no two
    truck rows share a key, the merged frame has the all-vehicle rows, each
    once and in order, and a row is flagged 1 exactly when the truck row
    of its key is absent or has no travel time.  In any case: truck rows
    whose key no all-vehicle row has change nothing; row for row, [FLAG]
    is 1 exactly when the joined truck travel time is missing and 0 exactly
    when it is not; and [FLAG] has no other value. *)
Theorem C6_left_join_and_flag (P S : list Reliab) :
  map veh (merge_impute P S)
  = flat_map
      (fun p =>
         repeat p
           (Nat.max 1
              (List.length
                 (filter (fun s => key_eqb (reliab_key p) (reliab_key s)) S))))
      P /\
  (NoDup (map reliab_key S) ->
   Forall2
     (fun p m =>
        let s := find (fun s => key_eqb (reliab_key p) (reliab_key s)) S in
        let tt := joined (fun s => TT_SEC (reliab_obs s)) s in
        veh m = p /\
        (FLAG m = Some 1 <-> isna tt = true) /\
        (FLAG m = Some 0 <-> isna tt = false))
     P (merge_impute P S)) /\
  merge_impute P S
  = merge_impute P
      (filter (fun s => existsb (fun p => key_eqb (reliab_key p) (reliab_key s)) P)
              S) /\
  Forall2
    (fun j m =>
       veh m = veh j /\
       (FLAG m = Some 1 <-> isna (TRK_TT_SEC j) = true) /\
       (FLAG m = Some 0 <-> isna (TRK_TT_SEC j) = false))
    (join_trk P S) (merge_impute P S) /\
  Forall (fun m => FLAG m = Some 0 \/ FLAG m = Some 1) (merge_impute P S).
Proof.
  split; [|split; [|split; [|split]]].
  - rewrite merge_impute_rows, map_map. unfold merge_left.
    induction P as [|p P IH]; [reflexivity|].
    cbn [flat_map]. rewrite map_app, IH, map_veh_matches. reflexivity.
  - intro Hnd. rewrite merge_impute_rows.
    rewrite (@merge_left_unique _ _ _ key_eqb reliab_key reliab_key key_eqb_eq
               P S Hnd).
    rewrite map_map. apply Forall2_map_self. intros p _. cbv zeta.
    split; [apply merged_row_veh|].
    apply (merged_row_FLAG
             (p, find (fun s => key_eqb (reliab_key p) (reliab_key s)) S)).
  - rewrite !merge_impute_rows. f_equal. apply merge_left_restrict.
  - rewrite merge_impute_rows. unfold join_trk. apply Forall2_map_map.
    intros j _. split; [apply merged_row_veh | apply merged_row_FLAG].
  - rewrite merge_impute_rows. apply Forall_forall. intros m Hm.
    apply in_map_iff in Hm. destruct Hm as [j [<- _]].
    destruct (isna (joined (fun s => TT_SEC (reliab_obs s)) (snd j))) eqn:E.
    + rewrite merged_row_missing by exact E. now right.
    + rewrite merged_row_measured by exact E. now left.
Qed.

Lemma sample_S_keys_NoDup : NoDup (map reliab_key sample_S).
Proof.
  vm_compute.
  repeat (constructor;
          [intro H; repeat (destruct H as [H|H]; [discriminate H|]); exact H|]).
  constructor.
Qed.

(** The sample frames: the truck frame has one row per all-vehicle key. *)
Lemma C6_left_join_and_flag_witness :
  Forall2
    (fun p m =>
       let s := find (fun s => key_eqb (reliab_key p) (reliab_key s)) sample_S in
       let tt := joined (fun s => TT_SEC (reliab_obs s)) s in
       veh m = p /\
       (FLAG m = Some 1 <-> isna tt = true) /\
       (FLAG m = Some 0 <-> isna tt = false))
    sample_P (merge_impute sample_P sample_S).
Proof.
  apply (proj1 (proj2 (C6_left_join_and_flag sample_P sample_S))).
  apply sample_S_keys_NoDup.
Defined.

(** C6, as the specification words it, fails: with two truck rows for the
    key of the one all-vehicle row, that row is in the merged frame twice. *)
Lemma C6_duplicate_key_counterexample :
  List.length dup_P = 1%nat /\
  map veh (merge_impute dup_P dup_S) = dup_P ++ dup_P /\
  rows_of (run (data_int_merged tie_index_odd dup_int dup_trk))
  = merge_impute dup_P dup_S /\
  map (fun m => reliab_obs (veh m))
      (rows_of (run (data_int_merged tie_index_odd dup_int dup_trk)))
  = dup_int ++ dup_int.
Proof. vm_compute. repeat split; reflexivity. Qed.

(* ===================================================================== *)
(** * Imputation *)
(* ===================================================================== *)

(** What a left merge pairs a left row with. *)
Lemma merge_left_pair (P S : list Reliab) (j : Reliab * option Reliab) :
  In j (merge_left key_eqb reliab_key reliab_key P S) ->
  In (fst j) P /\
  match snd j with
  | Some s => In s S /\ reliab_key s = reliab_key (fst j)
  | None => forall s, In s S -> reliab_key s <> reliab_key (fst j)
  end.
Proof.
  intro H.
  apply (@merge_left_In _ _ _ key_eqb reliab_key reliab_key) in H.
  destruct H as [HP Hm]. split; [assumption|].
  destruct j as [p [s|]]; simpl in *.
  - apply (@matches_Some _ _ _ key_eqb reliab_key reliab_key key_eqb_eq) in Hm.
    destruct Hm as [Hs Hk]. auto.
  - intros s Hs Hk.
    pose proof (proj1 (@matches_None _ _ _ key_eqb reliab_key reliab_key
                         key_eqb_eq S p) Hm) as Hno.
    apply (Hno s Hs). auto.
Qed.

(** C7.  On every merged row: the all-vehicle part is a row of the
    all-vehicle frame; if [FLAG] is 1 the truck speed and travel time are
    the all-vehicle speed and travel time of that same row; if [FLAG] is 0
    they are the speed and the (non-missing) travel time of a truck row of
    the same key; and a row whose key no truck row has is flagged 1.  With
    an all-vehicle row of MPH 55 and TT_SEC 120 and no truck row for its
    key, the merged row has flag 1, truck MPH 55 and truck TT_SEC 120. *)
Theorem C7_imputed_and_measured (tie : Z -> Z -> bool) (P S : list Reliab) :
  Forall
    (fun m =>
       In (veh m) P /\
       (FLAG m = Some 1 ->
        TRK_MPH m = MPH (reliab_obs (veh m)) /\
        TRK_TT_SEC m = TT_SEC (reliab_obs (veh m))) /\
       (FLAG m = Some 0 ->
        exists s, In s S /\ reliab_key s = reliab_key (veh m) /\
                  isna (TT_SEC (reliab_obs s)) = false /\
                  TRK_MPH m = MPH (reliab_obs s) /\
                  TRK_TT_SEC m = TT_SEC (reliab_obs s)) /\
       ((forall s, In s S -> reliab_key s <> reliab_key (veh m)) ->
        FLAG m = Some 1))
    (merge_impute P S) /\
  map (fun m => (FLAG m, MPH (reliab_obs (veh m)), TT_SEC (reliab_obs (veh m)),
                 TRK_MPH m, TRK_TT_SEC m))
      (rows_of (run (data_int_merged tie dup_int other_trk)))
  = [(Some 1, Fin 55, Fin 120, Fin 55, Fin 120)].
Proof.
  split; [|vm_compute; reflexivity].
  rewrite merge_impute_rows. apply Forall_forall. intros m Hm.
  apply in_map_iff in Hm. destruct Hm as [j [<- Hj]].
  apply merge_left_pair in Hj. destruct Hj as [HP Hpair].
  rewrite merged_row_veh. split; [assumption|].
  destruct (isna (joined (fun s => TT_SEC (reliab_obs s)) (snd j))) eqn:E.
  - rewrite merged_row_missing by exact E. simpl.
    repeat split; try reflexivity. intro H. discriminate H.
  - rewrite merged_row_measured by exact E. simpl.
    destruct j as [p [s|]]; simpl in *; [|discriminate E].
    destruct Hpair as [Hs Hk]. split; [intro H; discriminate H|]. split.
    + intros _. exists s. auto.
    + intro Hno. exfalso. apply (Hno s Hs Hk).
Qed.

(** C10.  Row for row, imputation leaves the all-vehicle part, the truck
    percentiles, the truck LOTTR and the flag as they were, and leaves the
    whole row as it was unless it is flagged 1.  A flagged row can so have
    truck speed and travel time filled in and truck percentiles and LOTTR
    still missing: the merged row of an all-vehicle observation whose key
    the truck feed lacks. *)
Theorem C10_imputation_frame (tie : Z -> Z -> bool) (P S : list Reliab) :
  Forall2
    (fun a m =>
       veh m = veh a /\
       TRK_TTQ1P m = TRK_TTQ1P a /\
       TRK_TTQ2P m = TRK_TTQ2P a /\
       TRK_LOTTR m = TRK_LOTTR a /\
       FLAG m = FLAG a /\
       (FLAG a = Some 1 <-> isna (TRK_TT_SEC a) = true) /\
       (FLAG a <> Some 1 -> m = a))
    (flagged P S) (merge_impute P S) /\
  map (fun m => (FLAG m, TRK_MPH m, TRK_TT_SEC m,
                 TRK_TTQ1P m, TRK_TTQ2P m, TRK_LOTTR m))
      (rows_of (run (data_int_merged tie dup_int other_trk)))
  = [(Some 1, Fin 55, Fin 120, NaN, NaN, NaN)].
Proof.
  split; [|vm_compute; reflexivity].
  rewrite flagged_rows, merge_impute_rows. apply Forall2_map_map.
  intros j _. unfold merged_row.
  set (a := fillna_FLAG_row (set_FLAG_row (joined_row j))).
  assert (Ha : (FLAG a = Some 1 <-> isna (TRK_TT_SEC a) = true)).
  { unfold a, fillna_FLAG_row, set_FLAG_row. simpl.
    destruct (isna (joined (fun s => TT_SEC (reliab_obs s)) (snd j))) eqn:E;
      simpl; rewrite E; split; intro H; try reflexivity; discriminate H. }
  unfold impute_row. destruct (isna (TRK_TT_SEC a)) eqn:E; simpl.
  - repeat split; try reflexivity; try apply Ha; try assumption.
    intro Hne. exfalso. apply Hne. apply Ha. reflexivity.
  - repeat split; try reflexivity; try apply Ha; try assumption.
Qed.

(* ===================================================================== *)
(** * The truck feed on the all-vehicle keys *)
(* ===================================================================== *)

(** The truck rows whose key is among [keys]. *)
Lemma merge_on_keys_restrict (keys : list (string * Z)) (trk : list Obs) :
  merge_on_keys keys trk
  = merge_on_keys keys
      (filter (fun t => existsb (fun k => key_eqb k (row_key t)) keys) trk).
Proof.
  unfold merge_on_keys. f_equal.
  apply (@merge_left_restrict _ _ _ key_eqb (fun k => k) row_key).
Qed.

(** A row of the truck frame laid onto the keys: its key is one of the
    keys, and its measurements are those of a truck row of that key, or
    missing when the truck feed has no such row. *)
Lemma merge_on_keys_In (keys : list (string * Z)) (trk : list Obs) (t : Obs) :
  In t (merge_on_keys keys trk) ->
  In (row_key t) keys /\
  ((exists o, In o trk /\ row_key o = row_key t /\
              MPH t = MPH o /\ TT_SEC t = TT_SEC o) \/
   ((forall o, In o trk -> row_key o <> row_key t) /\
    MPH t = NaN /\ TT_SEC t = NaN)).
Proof.
  unfold merge_on_keys. intro H. apply in_map_iff in H.
  destruct H as [[[c d] o] [<- Hj]].
  apply (@merge_left_In _ _ _ key_eqb (fun k => k) row_key) in Hj.
  simpl in Hj. destruct Hj as [Hk Hm]. unfold row_key at 1 3 5. simpl.
  split; [assumption|]. destruct o as [s|]; simpl.
  - left.
    apply (@matches_Some _ _ _ key_eqb (fun k => k) row_key key_eqb_eq) in Hm.
    destruct Hm as [Hs Hkey]. exists s. auto.
  - right.
    pose proof (proj1 (@matches_None _ _ _ key_eqb (fun k => k) row_key
                         key_eqb_eq trk (c, d)) Hm) as Hno.
    split; [|auto]. intros s Hs Hkey. apply (Hno s Hs). auto.
Qed.

(** Every key gets a row. *)
Lemma merge_on_keys_covers (keys : list (string * Z)) (trk : list Obs)
    (k : string * Z) :
  In k keys -> exists t, In t (merge_on_keys keys trk) /\ row_key t = k.
Proof.
  intro Hk.
  destruct (@merge_left_covers _ _ _ key_eqb (fun k => k) row_key keys trk k Hk)
    as [o Ho].
  exists {| tmc_code := fst k; DATETIME := snd k;
            MPH := joined MPH o; TT_SEC := joined TT_SEC o |}.
  split.
  - unfold merge_on_keys. apply in_map_iff. exists (k, o). auto.
  - destruct k; reflexivity.
Qed.

Lemma data_int_run (tie : Z -> Z -> bool) (ohint : list Obs) (log : list FrameOp) :
  exists P,
    data_int tie ohint log = (Ok P, log ++ lottr_log) /\
    map reliab_obs P = ohint.
Proof.
  exists (lottr_rows tie (add_hod_dow_tod_to_dataset ohint) 50 80). split.
  - unfold data_int. apply add_lottr_valid. reflexivity.
  - rewrite lottr_rows_spec, map_map.
    transitivity (map obs (add_hod_dow_tod_to_dataset ohint));
      [apply map_ext; reflexivity | apply add_hod_dow_tod_obs].
Qed.

Lemma data_int_trk_run (tie : Z -> Z -> bool) (P : list Reliab) (ohintrk : list Obs)
    (log : list FrameOp) :
  exists S,
    data_int_trk tie P ohintrk log = (Ok S, log ++ lottr_log) /\
    map reliab_obs S = merge_on_keys (map reliab_key P) ohintrk.
Proof.
  exists (lottr_rows tie (add_hod_dow_tod_to_dataset
                            (merge_on_keys (map reliab_key P) ohintrk)) 50 95).
  split.
  - unfold data_int_trk. apply add_lottr_valid. reflexivity.
  - rewrite lottr_rows_spec, map_map.
    transitivity (map obs (add_hod_dow_tod_to_dataset
                             (merge_on_keys (map reliab_key P) ohintrk)));
      [apply map_ext; reflexivity | apply add_hod_dow_tod_obs].
Qed.

(** C9.  The truck feed enters its reliability computation only through
    its left merge onto the all-vehicle keys.  Every row of that merged
    frame has an all-vehicle key, with the measurements of a truck row of
    that key or, when the truck feed has none, missing ones; every
    all-vehicle key has a row in it; the truck result is made of exactly
    these rows; and the truck result and the final merged frame are the
    same when the truck rows whose key the all-vehicle feed lacks are
    removed from the truck feed beforehand. *)
Theorem C9_truck_feed_on_vehicle_keys (tie : Z -> Z -> bool)
    (ohint ohintrk : list Obs) :
  let keys := map row_key ohint in
  let on_keys :=
    filter (fun t => existsb (fun k => key_eqb k (row_key t)) keys) ohintrk in
  let T := merge_on_keys keys ohintrk in
  (forall t, In t T ->
     In (row_key t) keys /\
     ((exists o, In o ohintrk /\ row_key o = row_key t /\
                 MPH t = MPH o /\ TT_SEC t = TT_SEC o) \/
      ((forall o, In o ohintrk -> row_key o <> row_key t) /\
       MPH t = NaN /\ TT_SEC t = NaN))) /\
  (forall k, In k keys -> exists t, In t T /\ row_key t = k) /\
  T = merge_on_keys keys on_keys /\
  (exists P S,
     run (data_int tie ohint) = (Ok P, lottr_log) /\
     map reliab_key P = keys /\
     data_int_trk tie P ohintrk lottr_log = (Ok S, lottr_log ++ lottr_log) /\
     data_int_trk tie P on_keys lottr_log = (Ok S, lottr_log ++ lottr_log) /\
     map reliab_obs S = T) /\
  (forall log,
     data_int_merged tie ohint ohintrk log
     = data_int_merged tie ohint on_keys log).
Proof.
  intros keys on_keys T.
  assert (Htrk : forall P, map reliab_key P = keys ->
            data_int_trk tie P ohintrk = data_int_trk tie P on_keys).
  { intros P HP. unfold data_int_trk. rewrite HP.
    fold T. unfold T at 1. rewrite merge_on_keys_restrict. reflexivity. }
  assert (Hkeys : forall P, map reliab_obs P = ohint -> map reliab_key P = keys).
  { intros P HP. unfold keys. rewrite <- HP, map_map. reflexivity. }
  split; [|split; [|split; [|split]]].
  - intros t Ht. apply merge_on_keys_In. exact Ht.
  - intros k Hk. apply merge_on_keys_covers. exact Hk.
  - apply merge_on_keys_restrict.
  - destruct (data_int_run tie ohint []) as [P [HrunP HobsP]].
    destruct (data_int_trk_run tie P ohintrk lottr_log) as [S [HrunS HobsS]].
    exists P, S. pose proof (Hkeys P HobsP) as HkP.
    split; [exact HrunP|]. split; [exact HkP|]. split; [exact HrunS|].
    split.
    + rewrite <- (Htrk P HkP). exact HrunS.
    + rewrite HobsS, HkP. reflexivity.
  - intro log. unfold data_int_merged, bind.
    destruct (data_int_run tie ohint log) as [P [HrunP HobsP]].
    rewrite HrunP. rewrite (Htrk P (Hkeys P HobsP)). reflexivity.
Qed.

(* ===================================================================== *)
(** * More on the Time Bucketer *)
(* ===================================================================== *)

(** X1.  Every row has an hour in 0..23 and a day of week in 1..7: the
    value 8 that the shift by 2 gives a Sunday is replaced, and 0 never
    occurs. *)
Theorem X1_hod_dow_ranges (data : list Obs) :
  Forall (fun b => 0 <= HOD b <= 23 /\ 1 <= DOW b <= 7)
         (add_hod_dow_tod_to_dataset data).
Proof.
  rewrite add_hod_dow_tod_rows. apply Forall_forall. intros b Hb.
  apply in_map_iff in Hb. destruct Hb as [r [<- _]]. apply bucket_row_ranges.
Qed.

Lemma dt_dayofweek_range (t : Z) : 0 <= dt_dayofweek t <= 6.
Proof.
  unfold dt_dayofweek.
  pose proof (Z.mod_pos_bound (t / ns_per_day + 3) 7 ltac:(lia)). lia.
Qed.

(** X2.  The day-of-week recoding sends Monday..Saturday (0..5) to 2..7
    and Sunday (6) to 1, so different days keep different codes; WE is
    assigned exactly on Saturdays and Sundays between hours 6 and 19, and
    AM, MD and PM only on Monday..Friday. *)
Theorem X2_day_of_week_recoding (data : list Obs) :
  Forall2
    (fun r b =>
       let wd := dt_dayofweek (DATETIME r) in
       (wd = 6 -> DOW b = 1) /\
       (wd <> 6 -> DOW b = wd + 2) /\
       (wd = (DOW b + 5) mod 7) /\
       (TOD b = WE <-> 5 < HOD b < 20 /\ (wd = 5 \/ wd = 6)) /\
       (TOD b = AM \/ TOD b = MD \/ TOD b = PM -> 0 <= wd <= 4))
    data (add_hod_dow_tod_to_dataset data).
Proof.
  rewrite add_hod_dow_tod_rows. apply Forall2_map_self. intros r _.
  unfold bucket_row. simpl.
  pose proof (dt_dayofweek_range (DATETIME r)) as Hwd.
  set (wd := dt_dayofweek (DATETIME r)) in *.
  set (h := dt_hour (DATETIME r)).
  assert (Hd : (wd = 6 -> replace 8 1 (wd + 2) = 1) /\
               (wd <> 6 -> replace 8 1 (wd + 2) = wd + 2)).
  { unfold replace. destruct (Z.eqb_spec (wd + 2) 8); lia. }
  destruct Hd as [Hsun Hoth].
  destruct (tod_of_spec h (replace 8 1 (wd + 2))) as (HAM & HMD & HPM & HWE & _).
  unfold is_AM, is_MD, is_PM, is_WE, weekday, weekend in *.
  split; [exact Hsun|]. split; [exact Hoth|]. split; [|split].
  - destruct (Z.eq_dec wd 6) as [E|E].
    + rewrite (Hsun E), E. reflexivity.
    + rewrite (Hoth E).
      replace (wd + 2 + 5) with (wd + 1 * 7) by ring.
      rewrite Z.mod_add by lia. symmetry. apply Z.mod_small. lia.
  - rewrite HWE. destruct (Z.eq_dec wd 6) as [E|E].
    + rewrite (Hsun E). lia.
    + rewrite (Hoth E). lia.
  - rewrite HAM, HMD, HPM. destruct (Z.eq_dec wd 6) as [E|E].
    + rewrite (Hsun E). lia.
    + rewrite (Hoth E). lia.
Qed.

(** X3.  EV is the bucket of the hours 0..5 and 20..23 of every day, and
    of no other hour: each hour 6..19 of a weekday is AM, MD or PM, and of
    a weekend day is WE. *)
Theorem X3_evening_is_night_hours (data : list Obs) :
  Forall (fun b => TOD b = EV <-> (HOD b <= 5 \/ 20 <= HOD b))
         (add_hod_dow_tod_to_dataset data).
Proof.
  rewrite add_hod_dow_tod_rows. apply Forall_forall. intros b Hb.
  apply in_map_iff in Hb. destruct Hb as [r [<- _]].
  pose proof (bucket_row_ranges r) as [_ Hd].
  unfold bucket_row in *. simpl in *.
  set (h := dt_hour (DATETIME r)).
  set (d := replace 8 1 (dt_dayofweek (DATETIME r) + 2)) in *.
  destruct (tod_of_spec h d) as (_ & _ & _ & _ & HEV).
  rewrite HEV. unfold is_AM, is_MD, is_PM, is_WE, weekday, weekend. lia.
Qed.

(* ===================================================================== *)
(** * More on the Reliability Calculator *)
(* ===================================================================== *)

Lemma row_percentile_group (tie : Z -> Z -> bool) (data : list Bucketed) (q : Z)
    (b1 b2 : Bucketed) :
  group_key b1 = group_key b2 ->
  row_percentile tie data q b1 = row_percentile tie data q b2.
Proof.
  intro H. unfold row_percentile, group_values. rewrite H. reflexivity.
Qed.

(** X4.  Two returned rows of the same (tmc_code, TOD) group carry the
    same two percentiles and the same LOTTR, whatever their own travel
    times are. *)
Theorem X4_group_constant (tie : Z -> Z -> bool) (data : list Bucketed)
    (q1 q2 : Z) (log log' : list FrameOp) (rows : list Reliab) :
  add_lottr_to_dataset tie data q1 q2 log = (Ok rows, log') ->
  Forall
    (fun r1 =>
       Forall
         (fun r2 =>
            group_key (bkt r1) = group_key (bkt r2) ->
            TTQ1P r1 = TTQ1P r2 /\ TTQ2P r1 = TTQ2P r2 /\ LOTTR r1 = LOTTR r2)
         rows)
    rows.
Proof.
  intro H. apply add_lottr_Ok_inv in H. destruct H as (_ & -> & _).
  apply Forall_forall. intros r1 H1. apply Forall_forall. intros r2 H2 Hk.
  apply in_map_iff in H1. destruct H1 as [b1 [<- _]].
  apply in_map_iff in H2. destruct H2 as [b2 [<- _]].
  simpl in *.
  rewrite (@row_percentile_group tie data q1 b1 b2 Hk).
  rewrite (@row_percentile_group tie data q2 b1 b2 Hk). auto.
Qed.

(** The sample rows: six rows of one group. *)
Lemma X4_group_constant_witness :
  Forall
    (fun r1 =>
       Forall
         (fun r2 =>
            group_key (bkt r1) = group_key (bkt r2) ->
            TTQ1P r1 = TTQ1P r2 /\ TTQ2P r1 = TTQ2P r2 /\ LOTTR r1 = LOTTR r2)
         (lottr_rows tie_index_odd sample_rows 50 80))
    (lottr_rows tie_index_odd sample_rows 50 80).
Proof.
  apply (@X4_group_constant tie_index_odd sample_rows 50 80 []
           ([] ++ lottr_log) (lottr_rows tie_index_odd sample_rows 50 80)).
  apply add_lottr_valid. reflexivity.
Defined.

Lemma fleb_trans (a b c : fval) :
  fleb a b = true -> fleb b c = true -> fleb a c = true.
Proof.
  destruct a as [| |x|], b as [| |y|], c as [| |z|]; simpl;
    try discriminate; try reflexivity.
  rewrite !Qle_bool_iff. apply Qle_trans.
Qed.

Lemma fleb_refl (a : fval) : isna a = false -> fleb a a = true.
Proof.
  destruct a as [| |x|]; simpl; try discriminate; try reflexivity.
  intros _. apply Qle_bool_iff. apply Qle_refl.
Qed.

Lemma np_sort_StronglySorted (l : list fval) :
  Forall (fun w => isna w = false) l ->
  StronglySorted (fun a b => fleb a b = true) (np_sort l).
Proof.
  intro H. apply Sorted_StronglySorted.
  - intros a b c. apply fleb_trans.
  - apply np_sort_Sorted. exact H.
Qed.

Lemma StronglySorted_nth (l : list fval) (i j : nat) :
  StronglySorted (fun a b => fleb a b = true) l ->
  (i < j)%nat -> (j < List.length l)%nat ->
  fleb (nth i l NaN) (nth j l NaN) = true.
Proof.
  intro Hs. revert i j. induction Hs as [|a l Hs IH Hall]; intros i j Hij Hj.
  - simpl in Hj. lia.
  - destruct j as [|j]; [lia|]. simpl in Hj. destruct i as [|i]; simpl.
    + apply (proj1 (Forall_forall _ l) Hall). apply nth_In. lia.
    + apply IH; lia.
Qed.

Lemma np_sort_notna (l : list fval) :
  Forall (fun w => isna w = false) l ->
  Forall (fun w => isna w = false) (np_sort l).
Proof. intro H. apply (Permutation_Forall (np_sort_perm l)). exact H. Qed.

(** In a sorted array without NaN a lower rank holds a lower or equal
    value. *)
Lemma np_sort_nth_le (l : list fval) (i j : nat) :
  Forall (fun w => isna w = false) l ->
  (i <= j)%nat -> (j < List.length l)%nat ->
  fleb (nth i (np_sort l) NaN) (nth j (np_sort l) NaN) = true.
Proof.
  intros Hl Hij Hj. destruct (Nat.eq_dec i j) as [->|Hne].
  - apply fleb_refl.
    apply (proj1 (Forall_forall _ _) (np_sort_notna Hl)).
    apply nth_In. rewrite np_sort_length. exact Hj.
  - apply StronglySorted_nth.
    + apply np_sort_StronglySorted. exact Hl.
    + lia.
    + rewrite np_sort_length. exact Hj.
Qed.

(** A higher percentile never selects a lower rank, whatever the parity
    rule. *)
Lemma closest_observation_mono (tie : Z -> Z -> bool) (n q1 q2 : Z) :
  0 <= n -> q1 <= q2 ->
  closest_observation tie n q1 <= closest_observation tie n q2.
Proof.
  intros Hn Hq.
  destruct (Z.eq_dec q1 q2) as [->|Hq12]; [lia|].
  destruct (Z.eq_dec n 0) as [->|Hn0]; [reflexivity|].
  unfold closest_observation.
  assert (Hi : 2 * n * q1 - 300 < 2 * n * q2 - 300) by nia.
  set (i1 := 2 * n * q1 - 300) in *. set (i2 := 2 * n * q2 - 300) in *.
  clearbody i1 i2.
  pose proof (Z.div_mod i1 200 ltac:(lia)) as D1.
  pose proof (Z.mod_pos_bound i1 200 ltac:(lia)) as M1.
  pose proof (Z.div_mod i2 200 ltac:(lia)) as D2.
  pose proof (Z.mod_pos_bound i2 200 ltac:(lia)) as M2.
  destruct (Z.eqb_spec (i1 mod 200) 0) as [E1|E1];
    destruct (Z.eqb_spec (i2 mod 200) 0) as [E2|E2]; simpl;
    try destruct (tie n q1); try destruct (tie n q2);
    repeat match goal with
           | |- context [?r <? 0] => destruct (Z.ltb_spec r 0)
           end; lia.
Qed.

Lemma closest_observation_0 (tie : Z -> Z -> bool) (n : Z) :
  closest_observation tie n 0 = 0.
Proof.
  unfold closest_observation. rewrite Z.mul_0_r. reflexivity.
Qed.

Lemma closest_observation_100 (tie : Z -> Z -> bool) (n : Z) :
  1 <= n -> closest_observation tie n 100 = n - 1.
Proof.
  intro Hn. unfold closest_observation.
  replace (2 * n * 100 - 300) with (100 + (n - 2) * 200) by ring.
  rewrite Z.div_add, Z.mod_add by lia.
  change (100 / 200) with 0. change (100 mod 200) with 100. simpl.
  destruct (Z.ltb_spec (n - 2 + 1) 0); lia.
Qed.

Lemma np_percentile_mono (tie : Z -> Z -> bool) (x : list fval) (q1 q2 : Z) :
  Forall (fun w => isna w = false) x -> x <> [] ->
  0 <= q1 -> q1 <= q2 -> q2 <= 100 ->
  fleb (np_percentile tie x q1) (np_percentile tie x q2) = true.
Proof.
  intros Hx Hne H0 H12 H100. unfold np_percentile.
  assert (Hn : 0 < Z.of_nat (List.length x))
    by (destruct x; [contradiction | simpl; lia]).
  pose proof (@closest_observation_range tie _ q1 Hn ltac:(lia)) as R1.
  pose proof (@closest_observation_range tie _ q2 Hn ltac:(lia)) as R2.
  pose proof (@closest_observation_mono tie (Z.of_nat (List.length x)) q1 q2
                ltac:(lia) H12) as Hm.
  apply np_sort_nth_le; [exact Hx | lia | lia].
Qed.

Lemma group_values_notna (data : list Bucketed) (b : Bucketed) :
  Forall (fun w => isna w = false) (group_values data b).
Proof.
  apply Forall_forall. intros v Hv. apply group_values_In in Hv.
  destruct Hv as [o (_ & _ & Hna & ->)]. exact Hna.
Qed.

Lemma row_percentile_mono (tie : Z -> Z -> bool) (data : list Bucketed)
    (q1 q2 : Z) (b : Bucketed) :
  0 <= q1 -> q1 <= q2 -> q2 <= 100 ->
  isna (row_percentile tie data q1 b) = false ->
  fleb (row_percentile tie data q1 b) (row_percentile tie data q2 b) = true.
Proof.
  intros H0 H12 H100. unfold row_percentile.
  pose proof (group_values_notna data b) as Hna.
  destruct (group_values data b) as [|v x] eqn:E; [discriminate|].
  intros _. apply np_percentile_mono; auto. discriminate.
Qed.

(** X5.  When a call with q1 <= q2 returns, the lower percentile cell of
    a row is never above the higher one, in the order of floats; on the
    rows of a group without travel times both cells are NaN. *)
Theorem X5_percentiles_ordered (tie : Z -> Z -> bool) (data : list Bucketed)
    (q1 q2 : Z) (log log' : list FrameOp) (rows : list Reliab) :
  q1 <= q2 ->
  add_lottr_to_dataset tie data q1 q2 log = (Ok rows, log') ->
  Forall
    (fun r =>
       (isna (TTQ1P r) = false -> fleb (TTQ1P r) (TTQ2P r) = true) /\
       (isna (TTQ1P r) = true -> isna (TTQ2P r) = true))
    rows.
Proof.
  intros H12 H. apply add_lottr_Ok_inv in H. destruct H as (Hq & -> & _).
  apply out_of_range_false in Hq. destruct Hq as [[H0 _] [_ H100]].
  apply Forall_forall. intros r Hr.
  apply in_map_iff in Hr. destruct Hr as [b [<- _]]. simpl. split.
  - apply row_percentile_mono; assumption.
  - unfold row_percentile.
    pose proof (group_values_notna data b) as Hna.
    destruct (group_values data b) as [|v x] eqn:E; [reflexivity|].
    intro Hnan. exfalso.
    assert (Hin : In (np_percentile tie (v :: x) q1) (v :: x))
      by (apply np_percentile_In; [discriminate | lia]).
    apply (proj1 (Forall_forall _ _) Hna) in Hin.
    rewrite Hnan in Hin. discriminate Hin.
Qed.

(** The truck percentiles, 50 and 95. *)
Lemma X5_percentiles_ordered_witness :
  Forall
    (fun r =>
       (isna (TTQ1P r) = false -> fleb (TTQ1P r) (TTQ2P r) = true) /\
       (isna (TTQ1P r) = true -> isna (TTQ2P r) = true))
    (lottr_rows tie_index_odd ramp_rows 50 95).
Proof.
  apply (@X5_percentiles_ordered tie_index_odd ramp_rows 50 95 []
           ([] ++ lottr_log) (lottr_rows tie_index_odd ramp_rows 50 95)).
  - lia.
  - apply add_lottr_valid. reflexivity.
Defined.

Lemma np_percentile_0_min (tie : Z -> Z -> bool) (x : list fval) (v : fval) :
  Forall (fun w => isna w = false) x -> In v x ->
  fleb (np_percentile tie x 0) v = true.
Proof.
  intros Hx Hv. unfold np_percentile. rewrite closest_observation_0. simpl.
  assert (Hs : In v (np_sort x))
    by (apply (Permutation_in _ (np_sort_perm x)); exact Hv).
  destruct (In_nth _ _ NaN Hs) as [k [Hk <-]]. rewrite np_sort_length in Hk.
  apply np_sort_nth_le; [exact Hx | lia | exact Hk].
Qed.

Lemma np_percentile_100_max (tie : Z -> Z -> bool) (x : list fval) (v : fval) :
  Forall (fun w => isna w = false) x -> In v x ->
  fleb v (np_percentile tie x 100) = true.
Proof.
  intros Hx Hv. unfold np_percentile.
  assert (Hn : (1 <= List.length x)%nat) by (destruct x; [destruct Hv | simpl; lia]).
  rewrite closest_observation_100 by lia.
  assert (Hs : In v (np_sort x))
    by (apply (Permutation_in _ (np_sort_perm x)); exact Hv).
  destruct (In_nth _ _ NaN Hs) as [k [Hk <-]]. rewrite np_sort_length in Hk.
  apply np_sort_nth_le; [exact Hx | lia | lia].
Qed.

(** X7.  At the ends of the range a call returns the extremes: with
    q1 = 0 and q2 = 100 the two percentile cells of a row whose group has
    a travel time are travel times of rows of that group, the first not
    above and the second not below any travel time of the group: the
    smallest and the largest. *)
Theorem X7_extreme_percentiles (tie : Z -> Z -> bool) (data : list Bucketed)
    (log log' : list FrameOp) (rows : list Reliab) :
  add_lottr_to_dataset tie data 0 100 log = (Ok rows, log') ->
  map bkt rows = data /\
  Forall
    (fun r =>
       ((exists o, In o data /\ group_key o = group_key (bkt r) /\
                   isna (TT_SEC (obs o)) = false) ->
        (exists omin, In omin data /\ group_key omin = group_key (bkt r) /\
                      isna (TT_SEC (obs omin)) = false /\
                      TTQ1P r = TT_SEC (obs omin)) /\
        (exists omax, In omax data /\ group_key omax = group_key (bkt r) /\
                      isna (TT_SEC (obs omax)) = false /\
                      TTQ2P r = TT_SEC (obs omax))) /\
       (forall o, In o data -> group_key o = group_key (bkt r) ->
                  isna (TT_SEC (obs o)) = false ->
                  fleb (TTQ1P r) (TT_SEC (obs o)) = true /\
                  fleb (TT_SEC (obs o)) (TTQ2P r) = true))
    rows.
Proof.
  intro H. apply add_lottr_Ok_inv in H. destruct H as (_ & -> & _). split.
  - rewrite map_map. simpl. apply map_id.
  - apply Forall_forall. intros r Hr.
    apply in_map_iff in Hr. destruct Hr as [b [<- _]]. simpl. split.
    + intro Hobs. split; apply row_percentile_observed; [lia | assumption |
                                                          lia | assumption].
    + intros o Hin Hk Hna.
      assert (Hv : In (TT_SEC (obs o)) (group_values data b))
        by (apply group_values_In; exists o; auto).
      pose proof (group_values_notna data b) as Hnotna.
      unfold row_percentile.
      destruct (group_values data b) as [|v x] eqn:E; [destruct Hv|].
      split; [apply np_percentile_0_min | apply np_percentile_100_max];
        assumption.
Qed.

Lemma X7_extreme_percentiles_witness :
  map bkt (lottr_rows tie_index_odd ramp_rows 0 100) = ramp_rows /\
  Forall
    (fun r =>
       ((exists o, In o ramp_rows /\ group_key o = group_key (bkt r) /\
                   isna (TT_SEC (obs o)) = false) ->
        (exists omin, In omin ramp_rows /\ group_key omin = group_key (bkt r) /\
                      isna (TT_SEC (obs omin)) = false /\
                      TTQ1P r = TT_SEC (obs omin)) /\
        (exists omax, In omax ramp_rows /\ group_key omax = group_key (bkt r) /\
                      isna (TT_SEC (obs omax)) = false /\
                      TTQ2P r = TT_SEC (obs omax))) /\
       (forall o, In o ramp_rows -> group_key o = group_key (bkt r) ->
                  isna (TT_SEC (obs o)) = false ->
                  fleb (TTQ1P r) (TT_SEC (obs o)) = true /\
                  fleb (TT_SEC (obs o)) (TTQ2P r) = true))
    (lottr_rows tie_index_odd ramp_rows 0 100).
Proof.
  apply (@X7_extreme_percentiles tie_index_odd ramp_rows []
           ([] ++ lottr_log) (lottr_rows tie_index_odd ramp_rows 0 100)).
  apply add_lottr_valid. reflexivity.
Defined.

Lemma group_values_app (d1 d2 : list Bucketed) (b : Bucketed) :
  group_values (d1 ++ d2) b = group_values d1 b ++ group_values d2 b.
Proof.
  unfold group_values, group_TT_SEC, dropna_TT_SEC.
  rewrite !filter_app, map_app. reflexivity.
Qed.

Lemma group_values_foreign (data : list Bucketed) (b : Bucketed) :
  (forall o, In o data -> group_key o <> group_key b) ->
  group_values data b = [].
Proof.
  intro H. destruct (group_values data b) as [|v x] eqn:E; [reflexivity|].
  exfalso.
  assert (Hv : In v (group_values data b)) by (rewrite E; now left).
  apply group_values_In in Hv. destruct Hv as [o (Hin & Hk & _)].
  apply (H o Hin Hk).
Qed.

(** X8.  Groups do not mix: when no row of one frame shares its
    (tmc_code, TOD) with a row of another, a call on the two frames put
    end to end returns the rows of the two separate calls put end to
    end. *)
Theorem X8_disjoint_frames (tie : Z -> Z -> bool) (d1 d2 : list Bucketed)
    (q1 q2 : Z) (log log1 log2 : list FrameOp) (r1 r2 : list Reliab) :
  (forall a e, In a d1 -> In e d2 -> group_key a <> group_key e) ->
  add_lottr_to_dataset tie d1 q1 q2 log = (Ok r1, log1) ->
  add_lottr_to_dataset tie d2 q1 q2 log = (Ok r2, log2) ->
  add_lottr_to_dataset tie (d1 ++ d2) q1 q2 log = (Ok (r1 ++ r2), log1).
Proof.
  intros Hdisj H1 H2.
  apply add_lottr_Ok_inv in H1. destruct H1 as (Hq & -> & ->).
  apply add_lottr_Ok_inv in H2. destruct H2 as (_ & -> & _).
  rewrite add_lottr_valid by exact Hq. rewrite lottr_rows_spec, map_app.
  assert (E1 : map (lottr_row tie (d1 ++ d2) q1 q2) d1
               = map (lottr_row tie d1 q1 q2) d1).
  { apply map_ext_in. intros b Hb. unfold lottr_row, row_percentile.
    rewrite group_values_app, (@group_values_foreign d2 b), app_nil_r.
    - reflexivity.
    - intros o Ho Hk. apply (Hdisj b o Hb Ho). auto. }
  assert (E2 : map (lottr_row tie (d1 ++ d2) q1 q2) d2
               = map (lottr_row tie d2 q1 q2) d2).
  { apply map_ext_in. intros b Hb. unfold lottr_row, row_percentile.
    rewrite group_values_app, (@group_values_foreign d1 b).
    - reflexivity.
    - intros o Ho Hk. apply (Hdisj o b Ho Hb). auto. }
  rewrite E1, E2. reflexivity.
Qed.

Lemma disjoint_groups_check (d1 d2 : list Bucketed) :
  forallb (fun a =>
             forallb (fun e => negb (group_eqb (group_key a) (group_key e))) d2)
          d1 = true ->
  forall a e, In a d1 -> In e d2 -> group_key a <> group_key e.
Proof.
  intros H a e Ha He Hk.
  rewrite forallb_forall in H. specialize (H a Ha).
  rewrite forallb_forall in H. specialize (H e He).
  rewrite Hk, group_eqb_refl in H. discriminate H.
Qed.

(** The sample rows are of segment X; these are of segment Z. *)
Lemma X8_disjoint_frames_witness :
  add_lottr_to_dataset tie_index_odd (sample_rows ++ other_rows) 50 80 []
  = (Ok (lottr_rows tie_index_odd sample_rows 50 80
         ++ lottr_rows tie_index_odd other_rows 50 80),
     [] ++ lottr_log).
Proof.
  apply (@X8_disjoint_frames tie_index_odd sample_rows other_rows 50 80 []
           ([] ++ lottr_log) ([] ++ lottr_log)).
  - apply disjoint_groups_check. vm_compute. reflexivity.
  - apply add_lottr_valid. reflexivity.
  - apply add_lottr_valid. reflexivity.
Defined.

(* ===================================================================== *)
(** * More on the main code *)
(* ===================================================================== *)

Lemma pipeline_P_obs (tie : Z -> Z -> bool) (ohint : list Obs) :
  map reliab_obs (pipeline_P tie ohint) = ohint.
Proof.
  unfold pipeline_P. rewrite map_map.
  transitivity (map obs (add_hod_dow_tod_to_dataset ohint));
    [apply map_ext; reflexivity | apply add_hod_dow_tod_obs].
Qed.

Lemma pipeline_P_keys (tie : Z -> Z -> bool) (ohint : list Obs) :
  map reliab_key (pipeline_P tie ohint) = map row_key ohint.
Proof.
  rewrite <- (pipeline_P_obs tie ohint) at 2. rewrite map_map. reflexivity.
Qed.

Lemma pipeline_S_obs (tie : Z -> Z -> bool) (ohint ohintrk : list Obs) :
  map reliab_obs (pipeline_S tie ohint ohintrk)
  = merge_on_keys (map row_key ohint) ohintrk.
Proof.
  unfold pipeline_S. rewrite map_map.
  transitivity (map obs (add_hod_dow_tod_to_dataset
                           (merge_on_keys (map row_key ohint) ohintrk)));
    [apply map_ext; reflexivity | apply add_hod_dow_tod_obs].
Qed.

(** The merged frame has a row for every all-vehicle row. *)
Lemma join_trk_nil (P S : list Reliab) : join_trk P S = [] -> P = [].
Proof.
  unfold join_trk, merge_left. destruct P as [|p P]; [reflexivity|].
  simpl. intro H. exfalso.
  pose proof (@matches_nonempty _ _ _ key_eqb reliab_key reliab_key S p) as Hne.
  destruct (matches key_eqb reliab_key reliab_key S p); [contradiction|].
  discriminate H.
Qed.

(** The main code, run on a feed with observations: both calls of the
    calculator return, and the merged frame is the merge of their
    frames. *)
Lemma pipeline_run (tie : Z -> Z -> bool) (ohint ohintrk : list Obs)
    (log : list FrameOp) :
  ohint <> [] ->
  data_int_merged tie ohint ohintrk log
  = (Ok (merge_impute (pipeline_P tie ohint) (pipeline_S tie ohint ohintrk)),
     (log ++ lottr_log) ++ lottr_log).
Proof.
  intro Hne. unfold data_int_merged, bind, data_int.
  rewrite add_lottr_valid by reflexivity. rewrite lottr_rows_spec.
  fold (pipeline_P tie ohint). unfold data_int_trk.
  rewrite add_lottr_valid by reflexivity. rewrite lottr_rows_spec.
  rewrite pipeline_P_keys. fold (pipeline_S tie ohint ohintrk).
  destruct (join_trk (pipeline_P tie ohint) (pipeline_S tie ohint ohintrk))
    eqn:E; [|reflexivity].
  exfalso. apply join_trk_nil in E. apply Hne.
  rewrite <- (pipeline_P_obs tie ohint), E. reflexivity.
Qed.

(** On a feed without observations the main code raises. *)
Lemma pipeline_run_empty (tie : Z -> Z -> bool) (ohintrk : list Obs)
    (log : list FrameOp) :
  data_int_merged tie [] ohintrk log
  = (Raised "cannot set a frame with no defined index and a scalar",
     (log ++ lottr_log) ++ lottr_log).
Proof.
  unfold data_int_merged, bind, data_int, data_int_trk.
  rewrite add_lottr_valid by reflexivity.
  rewrite add_lottr_valid by reflexivity. reflexivity.
Qed.

Lemma pipeline_run_inv (tie : Z -> Z -> bool) (ohint ohintrk : list Obs)
    (log log' : list FrameOp) (out : list Merged) :
  data_int_merged tie ohint ohintrk log = (Ok out, log') ->
  out = merge_impute (pipeline_P tie ohint) (pipeline_S tie ohint ohintrk).
Proof.
  destruct ohint as [|o ohint].
  - rewrite pipeline_run_empty. intro H. discriminate H.
  - rewrite pipeline_run by discriminate. intro H. inversion H. reflexivity.
Qed.

Lemma data_int_inv (tie : Z -> Z -> bool) (ohint : list Obs)
    (log log' : list FrameOp) (P : list Reliab) :
  data_int tie ohint log = (Ok P, log') -> P = pipeline_P tie ohint.
Proof.
  unfold data_int. intro H. apply add_lottr_Ok_inv in H.
  destruct H as (_ & -> & _). reflexivity.
Qed.

Lemma data_int_trk_inv (tie : Z -> Z -> bool) (ohint ohintrk : list Obs)
    (log log' : list FrameOp) (S : list Reliab) :
  data_int_trk tie (pipeline_P tie ohint) ohintrk log = (Ok S, log') ->
  S = pipeline_S tie ohint ohintrk.
Proof.
  unfold data_int_trk. rewrite pipeline_P_keys. intro H.
  apply add_lottr_Ok_inv in H. destruct H as (_ & -> & _). reflexivity.
Qed.

Lemma flat_map_length_ge {A B : Type} (f : A -> list B) (l : list A) :
  (forall a, f a <> []) -> (List.length l <= List.length (flat_map f l))%nat.
Proof.
  intro H. induction l as [|a l IH]; simpl; [lia|].
  rewrite length_app. specialize (H a). destruct (f a); [contradiction|].
  simpl. lia.
Qed.

(** X9.  The merge loses no all-vehicle row: every row of the
    all-vehicle frame is the all-vehicle part of at least one merged row,
    whatever the truck frame holds, and the merged frame has at least as
    many rows as the all-vehicle frame. *)
Theorem X9_no_vehicle_row_lost (P S : list Reliab) :
  Forall (fun p => exists m, In m (merge_impute P S) /\ veh m = p) P /\
  (List.length P <= List.length (merge_impute P S))%nat /\
  (S = [] -> map veh (merge_impute P S) = P).
Proof.
  rewrite merge_impute_rows. split; [|split].
  - apply Forall_forall. intros p Hp.
    destruct (@merge_left_covers _ _ _ key_eqb reliab_key reliab_key P S p Hp)
      as [o Ho].
    exists (merged_row (p, o)). split.
    + apply in_map_iff. exists (p, o). auto.
    + apply merged_row_veh.
  - rewrite length_map. unfold merge_left. apply flat_map_length_ge.
    intro p. apply matches_nonempty.
  - intros ->.
    rewrite (@merge_left_unique _ _ _ key_eqb reliab_key reliab_key key_eqb_eq
               P [] (NoDup_nil _)).
    rewrite !map_map.
    transitivity (map (fun p : Reliab => p) P);
      [apply map_ext; intro p; apply merged_row_veh | apply map_id].
Qed.

Lemma merge_on_keys_unique (keys : list (string * Z)) (trk : list Obs) :
  NoDup (map row_key trk) -> map row_key (merge_on_keys keys trk) = keys.
Proof.
  intro Hnd. unfold merge_on_keys.
  rewrite (@merge_left_unique _ _ _ key_eqb (fun k => k) row_key key_eqb_eq
             keys trk Hnd).
  rewrite !map_map.
  transitivity (map (fun k : string * Z => k) keys);
    [apply map_ext; intros [c d]; reflexivity | apply map_id].
Qed.

Lemma pipeline_S_keys (tie : Z -> Z -> bool) (ohint ohintrk : list Obs) :
  map reliab_key (pipeline_S tie ohint ohintrk)
  = map row_key (merge_on_keys (map row_key ohint) ohintrk).
Proof.
  rewrite <- (pipeline_S_obs tie ohint ohintrk), map_map. reflexivity.
Qed.

(** X10.  When no two all-vehicle observations share (tmc_code, DATETIME)
    and no two truck observations do, the merged frame the main code
    returns has the all-vehicle observations, each once and in the order
    of the feed. *)
Theorem X10_one_row_per_observation (tie : Z -> Z -> bool)
    (ohint ohintrk : list Obs) (out : list Merged) (log : list FrameOp) :
  NoDup (map row_key ohint) -> NoDup (map row_key ohintrk) ->
  run (data_int_merged tie ohint ohintrk) = (Ok out, log) ->
  map (fun m => reliab_obs (veh m)) out = ohint /\
  List.length out = List.length ohint.
Proof.
  intros Hint Htrk Hrun. apply pipeline_run_inv in Hrun. subst out.
  assert (Hout : map (fun m => reliab_obs (veh m))
                   (merge_impute (pipeline_P tie ohint)
                                 (pipeline_S tie ohint ohintrk)) = ohint).
  { rewrite merge_impute_rows.
    assert (HS : NoDup (map reliab_key (pipeline_S tie ohint ohintrk)))
      by (rewrite pipeline_S_keys, merge_on_keys_unique; assumption).
    rewrite (@merge_left_unique _ _ _ key_eqb reliab_key reliab_key key_eqb_eq
               (pipeline_P tie ohint) _ HS).
    rewrite !map_map. rewrite <- (pipeline_P_obs tie ohint) at 2.
    apply map_ext. intro p. rewrite merged_row_veh. reflexivity. }
  split; [exact Hout|].
  pose proof (f_equal (@List.length Obs) Hout) as HL.
  rewrite length_map in HL. exact HL.
Qed.

Lemma NoDup_keys_check (keys : list (string * Z)) :
  keys_distinct keys = true -> NoDup keys.
Proof.
  induction keys as [|k keys IH]; simpl; intro H; constructor.
  - apply andb_true_iff in H. destruct H as [H _].
    apply negb_true_iff in H. intro Hin.
    assert (Hex : existsb (key_eqb k) keys = true)
      by (apply existsb_exists; exists k; split; [exact Hin | apply key_eqb_refl]).
    rewrite Hex in H. discriminate H.
  - apply IH. apply andb_true_iff in H. apply H.
Qed.

(** The sample feeds: six all-vehicle and three truck observations. *)
Lemma X10_one_row_per_observation_witness :
  map (fun m => reliab_obs (veh m))
      (merge_impute (pipeline_P tie_index_odd sample_obs)
                    (pipeline_S tie_index_odd sample_obs sample_trk))
  = sample_obs /\
  List.length (merge_impute (pipeline_P tie_index_odd sample_obs)
                            (pipeline_S tie_index_odd sample_obs sample_trk))
  = List.length sample_obs.
Proof.
  apply (@X10_one_row_per_observation tie_index_odd sample_obs sample_trk _
           (([] ++ lottr_log) ++ lottr_log)).
  - apply NoDup_keys_check. vm_compute. reflexivity.
  - apply NoDup_keys_check. vm_compute. reflexivity.
  - apply pipeline_run. discriminate.
Defined.

(** X11.  Imputation fills a missing truck travel time only as far as the
    all-vehicle feed can: row for row, the truck travel time of the merged
    frame is missing exactly when the joined one was missing and the
    all-vehicle travel time is missing too.  So a merged row still without
    truck travel time is flagged 1 and has no all-vehicle travel time, and
    every row with an all-vehicle travel time has a truck travel time. *)
Theorem X11_still_missing_after_imputation (P S : list Reliab) :
  Forall2
    (fun j m =>
       isna (TRK_TT_SEC m)
       = isna (TRK_TT_SEC j) && isna (TT_SEC (reliab_obs (veh j))))
    (join_trk P S) (merge_impute P S) /\
  Forall
    (fun m =>
       (isna (TRK_TT_SEC m) = true ->
        FLAG m = Some 1 /\ isna (TT_SEC (reliab_obs (veh m))) = true) /\
       (isna (TT_SEC (reliab_obs (veh m))) = false ->
        isna (TRK_TT_SEC m) = false))
    (merge_impute P S).
Proof.
  assert (Hrow : forall j : Reliab * option Reliab,
            isna (TRK_TT_SEC (merged_row j))
            = isna (TRK_TT_SEC (joined_row j)) && isna (TT_SEC (reliab_obs (fst j)))
            /\ (isna (TRK_TT_SEC (joined_row j)) = false ->
                FLAG (merged_row j) = Some 0)
            /\ (isna (TRK_TT_SEC (joined_row j)) = true ->
                FLAG (merged_row j) = Some 1)).
  { intro j. simpl.
    destruct (isna (joined (fun s => TT_SEC (reliab_obs s)) (snd j))) eqn:E.
    - rewrite merged_row_missing by exact E. simpl.
      repeat split; try reflexivity. discriminate.
    - rewrite merged_row_measured by exact E. simpl. rewrite E.
      repeat split; try reflexivity. discriminate. }
  split.
  - rewrite merge_impute_rows. unfold join_trk. apply Forall2_map_map.
    intros j _. apply Hrow.
  - rewrite merge_impute_rows. apply Forall_forall. intros m Hm.
    apply in_map_iff in Hm. destruct Hm as [j [<- _]].
    destruct (Hrow j) as (Heq & H0 & H1). rewrite merged_row_veh.
    rewrite Heq. split.
    + intro H. apply andb_true_iff in H. destruct H as [Hj Hp]. auto.
    + intro H. rewrite H. apply andb_false_r.
Qed.

Lemma pipeline_P_In (tie : Z -> Z -> bool) (ohint : list Obs) (p : Reliab) :
  In p (pipeline_P tie ohint) ->
  bkt p = bucket_row (reliab_obs p) /\
  LOTTR p = fdiv (TTQ2P p) (TTQ1P p).
Proof.
  unfold pipeline_P. rewrite add_hod_dow_tod_rows. intro H.
  apply in_map_iff in H. destruct H as [b [<- Hb]].
  apply in_map_iff in Hb. destruct Hb as [r [<- _]].
  split; reflexivity.
Qed.

Lemma pipeline_S_In (tie : Z -> Z -> bool) (ohint ohintrk : list Obs) (s : Reliab) :
  In s (pipeline_S tie ohint ohintrk) ->
  let data :=
    add_hod_dow_tod_to_dataset (merge_on_keys (map row_key ohint) ohintrk) in
  bkt s = bucket_row (reliab_obs s) /\
  LOTTR s = fdiv (TTQ2P s) (TTQ1P s) /\
  TTQ1P s = row_percentile tie data 50 (bkt s) /\
  TTQ2P s = row_percentile tie data 95 (bkt s).
Proof.
  unfold pipeline_S. rewrite add_hod_dow_tod_rows. intro H.
  apply in_map_iff in H. destruct H as [b [<- Hb]].
  apply in_map_iff in Hb. destruct Hb as [r [<- _]].
  repeat split; reflexivity.
Qed.

(** In the main code every all-vehicle row finds a truck row of its key. *)
Lemma pipeline_pair (tie : Z -> Z -> bool) (ohint ohintrk : list Obs)
    (j : Reliab * option Reliab) :
  In j (merge_left key_eqb reliab_key reliab_key
          (pipeline_P tie ohint) (pipeline_S tie ohint ohintrk)) ->
  In (fst j) (pipeline_P tie ohint) /\
  exists s, snd j = Some s /\ In s (pipeline_S tie ohint ohintrk) /\
            reliab_key s = reliab_key (fst j).
Proof.
  intro Hj. apply merge_left_pair in Hj. destruct Hj as [Hp Hpair].
  split; [exact Hp|]. destruct (snd j) as [s|].
  - exists s. destruct Hpair. auto.
  - exfalso.
    assert (Hk : In (reliab_key (fst j)) (map row_key ohint))
      by (rewrite <- (pipeline_P_keys tie ohint); apply in_map; exact Hp).
    destruct (@merge_on_keys_covers (map row_key ohint) ohintrk _ Hk)
      as [t [Ht Hkt]].
    rewrite <- (pipeline_S_obs tie ohint ohintrk) in Ht.
    apply in_map_iff in Ht. destruct Ht as [s [Hs Hin]].
    apply (Hpair s Hin). unfold reliab_key at 1. rewrite Hs. exact Hkt.
Qed.

(** X13.  In the main code the merge pairs every all-vehicle row with a
    truck row, and the truck row has the same tmc_code, DATETIME, HOD, DOW
    and TOD as the all-vehicle row: the five truck columns dropped after
    the merge repeat the all-vehicle ones. *)
Theorem X13_dropped_columns_repeat (tie : Z -> Z -> bool)
    (ohint ohintrk : list Obs) (P S : list Reliab)
    (logP logS : list FrameOp) :
  run (data_int tie ohint) = (Ok P, logP) ->
  data_int_trk tie P ohintrk logP = (Ok S, logS) ->
  Forall
    (fun j =>
       exists s, snd j = Some s /\ In s S /\
         tmc_code (reliab_obs s) = tmc_code (reliab_obs (fst j)) /\
         DATETIME (reliab_obs s) = DATETIME (reliab_obs (fst j)) /\
         HOD (bkt s) = HOD (bkt (fst j)) /\
         DOW (bkt s) = DOW (bkt (fst j)) /\
         TOD (bkt s) = TOD (bkt (fst j)))
    (merge_left key_eqb reliab_key reliab_key P S).
Proof.
  intros HP HS. apply data_int_inv in HP. subst P.
  apply data_int_trk_inv in HS. subst S.
  apply Forall_forall. intros j Hj. apply pipeline_pair in Hj.
  destruct Hj as [Hp [s (Hsome & Hs & Hk)]]. exists s.
  split; [exact Hsome|]. split; [exact Hs|].
  apply pipeline_P_In in Hp. destruct Hp as [Hbp _].
  apply pipeline_S_In in Hs. destruct Hs as [Hbs _].
  unfold reliab_key, row_key in Hk. inversion Hk as [[Htmc Hdt]].
  rewrite Hbs, Hbp. unfold bucket_row. simpl. rewrite Hdt. auto.
Qed.

(** The sample feeds. *)
Lemma X13_dropped_columns_repeat_witness :
  Forall
    (fun j =>
       exists s, snd j = Some s /\
         In s (pipeline_S tie_index_odd sample_obs sample_trk) /\
         tmc_code (reliab_obs s) = tmc_code (reliab_obs (fst j)) /\
         DATETIME (reliab_obs s) = DATETIME (reliab_obs (fst j)) /\
         HOD (bkt s) = HOD (bkt (fst j)) /\
         DOW (bkt s) = DOW (bkt (fst j)) /\
         TOD (bkt s) = TOD (bkt (fst j)))
    (merge_left key_eqb reliab_key reliab_key
       (pipeline_P tie_index_odd sample_obs)
       (pipeline_S tie_index_odd sample_obs sample_trk)).
Proof.
  apply (@X13_dropped_columns_repeat tie_index_odd sample_obs sample_trk
           (pipeline_P tie_index_odd sample_obs)
           (pipeline_S tie_index_odd sample_obs sample_trk)
           ([] ++ lottr_log) (([] ++ lottr_log) ++ lottr_log)).
  - unfold run, data_int. rewrite add_lottr_valid by reflexivity.
    rewrite lottr_rows_spec. reflexivity.
  - unfold data_int_trk. rewrite add_lottr_valid by reflexivity.
    rewrite lottr_rows_spec, pipeline_P_keys. reflexivity.
Defined.

Lemma merged_row_TRK (j : Reliab * option Reliab) :
  TRK_TTQ1P (merged_row j) = joined TTQ1P (snd j) /\
  TRK_TTQ2P (merged_row j) = joined TTQ2P (snd j) /\
  TRK_LOTTR (merged_row j) = joined LOTTR (snd j).
Proof.
  destruct (isna (joined (fun s => TT_SEC (reliab_obs s)) (snd j))) eqn:E.
  - rewrite merged_row_missing by exact E. auto.
  - rewrite merged_row_measured by exact E. auto.
Qed.



(** A percentile of the truck frame that is not NaN is the travel time of
    a truck observation of the feed, of an all-vehicle key and of the
    row's segment and time of day. *)
Lemma truck_percentile_measured (tie : Z -> Z -> bool) (ohint ohintrk : list Obs)
    (q : Z) (b : Bucketed) :
  let data :=
    add_hod_dow_tod_to_dataset (merge_on_keys (map row_key ohint) ohintrk) in
  0 <= q <= 100 ->
  isna (row_percentile tie data q b) = false ->
  exists o, In o ohintrk /\ In (row_key o) (map row_key ohint) /\
            group_key (bucket_row o) = group_key b /\
            isna (TT_SEC o) = false /\
            row_percentile tie data q b = TT_SEC o.
Proof.
  intros data Hq Hna.
  assert (Hne : group_values data b <> []).
  { intro E. unfold row_percentile in Hna. rewrite E in Hna. discriminate Hna. }
  pose proof (row_percentile_In tie data b Hq Hne) as Hin.
  apply group_values_In in Hin.
  destruct Hin as [b' (Hb' & Hk & Hna' & Hv)].
  unfold data in Hb'. rewrite add_hod_dow_tod_rows in Hb'.
  apply in_map_iff in Hb'. destruct Hb' as [t [<- Ht]].
  apply merge_on_keys_In in Ht. destruct Ht as [Hkey [[o Ho]|[_ [_ Hnan]]]].
  - destruct Ho as (Hin & Hrk & _ & Htt). exists o.
    simpl in Hna', Hv. rewrite Htt in Hna', Hv.
    split; [exact Hin|]. split; [rewrite Hrk; exact Hkey|].
    split; [|auto]. rewrite <- Hk.
    unfold row_key in Hrk. inversion Hrk as [[Htmc Hdt]].
    unfold group_key, bucket_row. simpl. rewrite Htmc, Hdt. reflexivity.
  - simpl in Hna'. rewrite Hnan in Hna'. discriminate Hna'.
Qed.

(** X12.  Imputed values never enter the truck percentiles: in the merged
    frame the main code returns, a truck percentile that is not NaN is the
    travel time of an observation of the truck feed whose key is an
    all-vehicle key and whose segment and time of day are those of the
    row. *)
Theorem X12_truck_percentiles_are_measured (tie : Z -> Z -> bool)
    (ohint ohintrk : list Obs) (out : list Merged) (log : list FrameOp) :
  run (data_int_merged tie ohint ohintrk) = (Ok out, log) ->
  Forall
    (fun m =>
       (isna (TRK_TTQ1P m) = false ->
        exists o, In o ohintrk /\ In (row_key o) (map row_key ohint) /\
                  group_key (bucket_row o) = group_key (bkt (veh m)) /\
                  isna (TT_SEC o) = false /\ TRK_TTQ1P m = TT_SEC o) /\
       (isna (TRK_TTQ2P m) = false ->
        exists o, In o ohintrk /\ In (row_key o) (map row_key ohint) /\
                  group_key (bucket_row o) = group_key (bkt (veh m)) /\
                  isna (TT_SEC o) = false /\ TRK_TTQ2P m = TT_SEC o))
    out.
Proof.
  intro Hrun. apply pipeline_run_inv in Hrun. subst out.
  rewrite merge_impute_rows. apply Forall_forall. intros m Hm.
  apply in_map_iff in Hm. destruct Hm as [j [<- Hj]].
  apply pipeline_pair in Hj. destruct Hj as [Hp [s (Hsome & Hs & Hk)]].
  rewrite merged_row_veh.
  destruct (merged_row_TRK j) as (-> & -> & _). rewrite Hsome. simpl.
  apply pipeline_P_In in Hp. destruct Hp as [Hbp _].
  apply pipeline_S_In in Hs. cbv zeta in Hs.
  destruct Hs as (Hbs & _ & H1 & H2).
  assert (Hg : group_key (bkt s) = group_key (bkt (fst j))).
  { rewrite Hbs, Hbp. unfold reliab_key, row_key in Hk.
    inversion Hk as [[Htmc Hdt]].
    unfold group_key, bucket_row. simpl. rewrite Htmc, Hdt. reflexivity. }
  rewrite H1, H2, <- Hg.
  split; apply truck_percentile_measured; lia.
Qed.

(** The sample feeds. *)
Lemma X12_truck_percentiles_are_measured_witness :
  Forall
    (fun m =>
       (isna (TRK_TTQ1P m) = false ->
        exists o, In o sample_trk /\ In (row_key o) (map row_key sample_obs) /\
                  group_key (bucket_row o) = group_key (bkt (veh m)) /\
                  isna (TT_SEC o) = false /\ TRK_TTQ1P m = TT_SEC o) /\
       (isna (TRK_TTQ2P m) = false ->
        exists o, In o sample_trk /\ In (row_key o) (map row_key sample_obs) /\
                  group_key (bucket_row o) = group_key (bkt (veh m)) /\
                  isna (TT_SEC o) = false /\ TRK_TTQ2P m = TT_SEC o))
    (merge_impute (pipeline_P tie_index_odd sample_obs)
                  (pipeline_S tie_index_odd sample_obs sample_trk)).
Proof.
  apply (@X12_truck_percentiles_are_measured tie_index_odd sample_obs
           sample_trk _ (([] ++ lottr_log) ++ lottr_log)).
  apply pipeline_run. discriminate.
Defined.

(* ===================================================================== *)
(** * Output file names *)
(* ===================================================================== *)

Lemma has_char_append (c : ascii) (a b : string) :
  has_char c (a ++ b) = has_char c a || has_char c b.
Proof.
  induction a as [|x a IH]; simpl; [reflexivity|].
  rewrite IH. apply orb_assoc.
Qed.

Lemma path_tail_no_sep (p : string) : has_char "/" (path_tail p) = false.
Proof.
  induction p as [|a p IH]; simpl; [reflexivity|].
  destruct (has_char "/" p) eqn:E; [exact IH|].
  destruct (Ascii.eqb a "/") eqn:Ea; [exact E|].
  simpl. rewrite Ea, E. reflexivity.
Qed.

(** [path_tail p] is [p] without a head that is empty or ends in the
    separator. *)
Lemma path_tail_split (p : string) :
  exists head,
    p = (head ++ path_tail p)%string /\
    (head = EmptyString \/ exists h, head = (h ++ "/")%string).
Proof.
  induction p as [|a p IH]; simpl.
  - exists EmptyString. auto.
  - destruct (has_char "/" p) eqn:E.
    + destruct IH as [head [Hp Hh]]. exists (String a head). split.
      * simpl. rewrite <- Hp. reflexivity.
      * right. destruct Hh as [->|[h ->]].
        -- exfalso. simpl in Hp.
           pose proof (path_tail_no_sep p) as Hn. rewrite <- Hp in Hn.
           rewrite Hn in E. discriminate E.
        -- exists (String a h). reflexivity.
    + destruct (Ascii.eqb_spec a "/") as [->|Hne].
      * exists "/"%string. split; [reflexivity|].
        right. exists EmptyString. reflexivity.
      * exists EmptyString. auto.
Qed.

Lemma before_first_dot_no_dot (s : string) :
  has_char "." (before_first_dot s) = false.
Proof.
  induction s as [|a s IH]; simpl; [reflexivity|].
  destruct (Ascii.eqb a ".") eqn:E; simpl; [reflexivity|].
  rewrite E. exact IH.
Qed.

Lemma before_first_dot_keeps (c : ascii) (s : string) :
  has_char c s = false -> has_char c (before_first_dot s) = false.
Proof.
  induction s as [|a s IH]; simpl; [reflexivity|].
  intro H. apply orb_false_iff in H. destruct H as [Ha Hs].
  destruct (Ascii.eqb a "."); simpl; [reflexivity|].
  rewrite Ha. apply IH. exact Hs.
Qed.

Lemma before_first_dot_split (s : string) :
  exists rest,
    s = (before_first_dot s ++ rest)%string /\
    (rest = EmptyString \/ exists r, rest = String "." r).
Proof.
  induction s as [|a s IH]; simpl.
  - exists EmptyString. auto.
  - destruct (Ascii.eqb_spec a ".") as [->|Hne].
    + exists (String "." s). split; [reflexivity|]. right. exists s. reflexivity.
    + destruct IH as [rest [Hs Hr]]. exists rest. split; [|exact Hr].
      simpl. rewrite <- Hs. reflexivity.
Qed.

(** X15.  The name an output file is written under is [./LOTTR_], a stem
    and [.csv], where the stem is the part of the input path after its
    last [/] and before the first dot that follows: it holds neither a
    [/] nor a dot, so the file goes to the working directory whatever
    directory the input is in.  The three files the script writes are
    LOTTR_OHINT23, LOTTR_OHSRO23 and LOTTR_OHUSR23. *)
Theorem X15_output_name (filename : string) :
  has_char "/" (filename_without_format filename) = false /\
  has_char "." (filename_without_format filename) = false /\
  (exists head rest,
     filename = (head ++ filename_without_format filename ++ rest)%string /\
     (head = EmptyString \/ exists h, head = (h ++ "/")%string) /\
     (rest = EmptyString \/ exists r, rest = String "." r) /\
     has_char "/" rest = false) /\
  map output_name [filename_ohint; filename_ohsro; filename_ohusr]
  = ["./LOTTR_OHINT23.csv"; "./LOTTR_OHSRO23.csv"; "./LOTTR_OHUSR23.csv"]%string.
Proof.
  unfold filename_without_format.
  split; [|split; [|split]].
  - apply before_first_dot_keeps, path_tail_no_sep.
  - apply before_first_dot_no_dot.
  - destruct (path_tail_split filename) as [head [Hp Hh]].
    destruct (before_first_dot_split (path_tail filename)) as [rest [Hs Hr]].
    exists head, rest. split; [|split; [exact Hh|split; [exact Hr|]]].
    + rewrite <- Hs. exact Hp.
    + pose proof (path_tail_no_sep filename) as Hn. rewrite Hs in Hn.
      rewrite has_char_append in Hn. apply orb_false_iff in Hn. apply Hn.
  - reflexivity.
Qed.

Lemma path_tail_append (d t : string) :
  has_char "/" t = false -> path_tail (d ++ String "/" t) = t.
Proof.
  intro Ht. induction d as [|a d IH]; simpl.
  - rewrite Ht. reflexivity.
  - rewrite has_char_append. simpl. rewrite orb_true_r. exact IH.
Qed.

Lemma before_first_dot_append (n e : string) :
  has_char "." n = false -> before_first_dot (n ++ String "." e) = n.
Proof.
  induction n as [|a n IH]; simpl; intro H; [reflexivity|].
  apply orb_false_iff in H. destruct H as [Ha Hn].
  rewrite Ha. f_equal. apply IH. exact Hn.
Qed.

(** X16.  Neither the directory nor the extension of the input shows in
    the output name: an input [dir/name.ext], with no [/] or dot in
    [name] and no [/] in [ext], is written to [./LOTTR_name.csv], so two
    inputs of the same name in different directories, or with different
    extensions, go to the same output file. *)
Theorem X16_output_name_collisions (dir1 dir2 name ext1 ext2 : string) :
  has_char "/" name = false -> has_char "." name = false ->
  has_char "/" ext1 = false -> has_char "/" ext2 = false ->
  output_name (dir1 ++ String "/" (name ++ String "." ext1))
  = ("./LOTTR_" ++ name ++ ".csv")%string /\
  output_name (dir1 ++ String "/" (name ++ String "." ext1))
  = output_name (dir2 ++ String "/" (name ++ String "." ext2)).
Proof.
  intros Hs Hd H1 H2.
  assert (Hout : forall dir ext, has_char "/" ext = false ->
            output_name (dir ++ String "/" (name ++ String "." ext))
            = ("./LOTTR_" ++ name ++ ".csv")%string).
  { intros dir ext He. unfold output_name, filename_without_format.
    rewrite path_tail_append.
    - rewrite before_first_dot_append by exact Hd. reflexivity.
    - rewrite has_char_append. simpl. rewrite Hs, He. reflexivity. }
  split; [apply Hout; exact H1|].
  rewrite (Hout dir1 ext1 H1), (Hout dir2 ext2 H2). reflexivity.
Qed.

Lemma X16_output_name_collisions_witness :
  output_name ("./Datafiles/OHINT23" ++ String "/" ("OHINT23" ++ String "." "csv"))
  = ("./LOTTR_" ++ "OHINT23" ++ ".csv")%string /\
  output_name ("./Datafiles/OHINT23" ++ String "/" ("OHINT23" ++ String "." "csv"))
  = output_name ("./Backup" ++ String "/" ("OHINT23" ++ String "." "csv.gz")).
Proof.
  apply (@X16_output_name_collisions "./Datafiles/OHINT23" "./Backup" "OHINT23"
           "csv" "csv.gz"); reflexivity.
Defined.

(* ===================================================================== *)
(** * Column names *)
(* ===================================================================== *)

Lemma to_int_not_nil (q : Z) :
  Z.to_int q <> Decimal.Pos Decimal.Nil /\ Z.to_int q <> Decimal.Neg Decimal.Nil.
Proof.
  split; intro H; pose proof (DecimalZ.of_to q) as Hq; rewrite H in Hq;
    simpl in Hq; subst q; discriminate H.
Qed.

Lemma str_parses (q : Z) : NilZero.int_of_string (str q) = Some (Z.to_int q).
Proof.
  unfold str. destruct (to_int_not_nil q) as [Hp Hn]. now apply NilZero.isi.
Qed.

(** Different integers print differently. *)
Lemma str_inj (a b : Z) : str a = str b -> a = b.
Proof.
  intro H. pose proof (str_parses a) as Ha. rewrite H, str_parses in Ha.
  inversion Ha as [Hab].
  rewrite <- (DecimalZ.of_to a), <- (DecimalZ.of_to b), Hab. reflexivity.
Qed.

Lemma append_last_inj (s t : string) (a b : ascii) :
  (s ++ String a EmptyString)%string = (t ++ String b EmptyString)%string ->
  s = t /\ a = b.
Proof.
  revert t. induction s as [|x s IH]; intros [|y t]; simpl; intro H.
  - inversion H. auto.
  - inversion H as [[Hx Ht]]. destruct t; discriminate Ht.
  - inversion H as [[Hx Hs]]. destruct s; discriminate Hs.
  - inversion H as [[Hx Hst]]. destruct (IH t Hst) as [-> ->]. auto.
Qed.

Lemma percentile_label_not_str (q : Z) (s : string) :
  NilZero.int_of_string s = None ->
  percentile_label q <> ("TT" ++ s ++ "P")%string.
Proof.
  intros Hs H. unfold percentile_label in H. simpl in H.
  inversion H as [Heq]. apply append_last_inj in Heq. destruct Heq as [Heq _].
  pose proof (str_parses q) as Hq. rewrite Heq, Hs in Hq. discriminate Hq.
Qed.

(** X17.  The names the two percentile columns are renamed to tell the
    percentiles apart: two percentiles get the same name only if they are
    the same number (so with q1 = q2 both columns end up under one name),
    and the name is none of the other column names of the frame.  For
    50, 80 and 95 the names are TT50P, TT80P and TT95P. *)
Theorem X17_percentile_labels (q1 q2 : Z) :
  (percentile_label q1 = percentile_label q2 <-> q1 = q2) /\
  ~ In (percentile_label q1)
       [ "tmc_code"; "DATETIME"; "MPH"; "TT_SEC"; "HOD"; "DOW"; "TOD";
         "LOTTR"; "TTQ1P"; "TTQ2P" ]%string /\
  map percentile_label [50; 80; 95] = ["TT50P"; "TT80P"; "TT95P"]%string.
Proof.
  split; [|split; [|reflexivity]].
  - split; [|intros ->; reflexivity].
    unfold percentile_label. simpl. intro H. inversion H as [Heq].
    apply append_last_inj in Heq. destruct Heq as [Heq _].
    apply str_inj. exact Heq.
  - intro Hin. simpl in Hin.
    destruct Hin as [H|[H|[H|[H|[H|[H|[H|[H|[H|[H|[]]]]]]]]]]];
      symmetry in H;
      try (unfold percentile_label in H; simpl in H; discriminate H).
    + unfold percentile_label in H. simpl in H. inversion H as [Heq].
      change "_SEC"%string with ("_SE" ++ "C")%string in Heq.
      apply append_last_inj in Heq. destruct Heq as [_ Heq]. discriminate Heq.
    + apply (@percentile_label_not_str q1 "Q1"); [reflexivity | exact H].
    + apply (@percentile_label_not_str q1 "Q2"); [reflexivity | exact H].
Qed.

Lemma names_distinct_NoDup (l : list string) :
  names_distinct l = true -> NoDup l.
Proof.
  induction l as [|c l IH]; simpl; intro H; constructor.
  - apply andb_true_iff in H. destruct H as [H _].
    apply negb_true_iff in H. intro Hin.
    assert (Hex : existsb (String.eqb c) l = true)
      by (apply existsb_exists; exists c; split;
          [exact Hin | apply String.eqb_refl]).
    rewrite Hex in H. discriminate H.
  - apply IH. apply andb_true_iff in H. apply H.
Qed.

Lemma NoDup_map_inj {A B : Type} (f : A -> B) (l : list A) :
  (forall a b, In a l -> In b l -> f a = f b -> a = b) ->
  NoDup l -> NoDup (map f l).
Proof.
  intros Hinj Hnd. induction Hnd as [|a l Hnotin Hnd IH]; simpl; constructor.
  - intro Hin. apply in_map_iff in Hin. destruct Hin as [b [Hfb Hb]].
    apply Hnotin. rewrite (Hinj a b (or_introl eq_refl) (or_intror Hb)); auto.
  - apply IH. intros x y Hx Hy. apply Hinj; now right.
Qed.

Lemma trk_label_inj (c c' : string) : trk_label c = trk_label c' -> c = c'.
Proof. unfold trk_label. simpl. intro H. inversion H. reflexivity. Qed.

Lemma trk_label_prefix (c : string) : String.prefix "TRK_" (trk_label c) = true.
Proof. unfold trk_label. simpl. destruct c; reflexivity. Qed.

(** X18.  Renaming the truck columns keeps the merged frame free of
    repeated names: if the all-vehicle names are distinct and none starts
    with [TRK_], and the truck names are distinct, then the all-vehicle
    names followed by the renamed truck names are distinct, although the
    two frames share names such as tmc_code, LOTTR and TT50P. *)
Theorem X18_merged_columns_distinct (left columns : list string) :
  Forall (fun c => String.prefix "TRK_" c = false) left ->
  NoDup left -> NoDup columns ->
  NoDup (left ++ trk_columns columns) /\
  Forall (fun c => String.prefix "TRK_" c = true) (trk_columns columns) /\
  List.length (trk_columns columns) = List.length columns.
Proof.
  intros Hleft Hnl Hnc. split; [|split].
  - apply NoDup_app.
    + exact Hnl.
    + unfold trk_columns. apply NoDup_map_inj; [|exact Hnc].
      intros c c' _ _. apply trk_label_inj.
    + intros c Hc Hin. unfold trk_columns in Hin. apply in_map_iff in Hin.
      destruct Hin as [c' [<- _]].
      apply (proj1 (Forall_forall _ _) Hleft) in Hc.
      rewrite trk_label_prefix in Hc. discriminate Hc.
  - apply Forall_forall. intros c Hin. unfold trk_columns in Hin.
    apply in_map_iff in Hin. destruct Hin as [c' [<- _]].
    apply trk_label_prefix.
  - apply length_map.
Qed.

(** The columns of the two interstate frames. *)
Lemma X18_merged_columns_distinct_witness :
  NoDup (data_int_columns ++ trk_columns data_int_trk_columns) /\
  Forall (fun c => String.prefix "TRK_" c = true)
         (trk_columns data_int_trk_columns) /\
  List.length (trk_columns data_int_trk_columns)
  = List.length data_int_trk_columns.
Proof.
  apply (@X18_merged_columns_distinct data_int_columns data_int_trk_columns).
  - apply Forall_forall. intros c Hc.
    assert (Hb : forallb (fun c => negb (String.prefix "TRK_" c))
                         data_int_columns = true) by (vm_compute; reflexivity).
    rewrite forallb_forall in Hb. apply Hb in Hc.
    apply negb_true_iff in Hc. exact Hc.
  - apply names_distinct_NoDup. vm_compute. reflexivity.
  - apply names_distinct_NoDup. vm_compute. reflexivity.
Defined.

Lemma rename_label_cases (c : string) :
  (c = "measurement_tstamp"%string /\ rename_label c = "DATETIME"%string) \/
  (c = "speed"%string /\ rename_label c = "MPH"%string) \/
  (c = "travel_time_seconds"%string /\ rename_label c = "TT_SEC"%string) \/
  (c <> "measurement_tstamp"%string /\ c <> "speed"%string /\
   c <> "travel_time_seconds"%string /\ rename_label c = c).
Proof.
  unfold rename_label.
  destruct (String.eqb_spec c "measurement_tstamp") as [->|H1]; [auto|].
  destruct (String.eqb_spec c "speed") as [->|H2]; [auto|].
  destruct (String.eqb_spec c "travel_time_seconds") as [->|H3]; [auto 6|].
  right. right. right. auto.
Qed.

(** X19.  The renaming of the loaded columns keeps their number and
    touches three names only, each in its place: the column at a position
    is DATETIME, MPH or TT_SEC where it was measurement_tstamp, speed or
    travel_time_seconds, and keeps its name where it was any other; the
    three old names are gone from the renamed header.  If the loaded names
    are distinct and none of them already is DATETIME, MPH or TT_SEC, the
    renamed ones are distinct too. *)
Theorem X19_renamed_columns (columns : list string) :
  List.length (rename_columns columns) = List.length columns /\
  (forall i : nat,
     nth_error columns i = Some "measurement_tstamp"%string ->
     nth_error (rename_columns columns) i = Some "DATETIME"%string) /\
  (forall i : nat,
     nth_error columns i = Some "speed"%string ->
     nth_error (rename_columns columns) i = Some "MPH"%string) /\
  (forall i : nat,
     nth_error columns i = Some "travel_time_seconds"%string ->
     nth_error (rename_columns columns) i = Some "TT_SEC"%string) /\
  (forall (i : nat) (c : string),
     nth_error columns i = Some c ->
     c <> "measurement_tstamp"%string -> c <> "speed"%string ->
     c <> "travel_time_seconds"%string ->
     nth_error (rename_columns columns) i = Some c) /\
  ~ In "measurement_tstamp"%string (rename_columns columns) /\
  ~ In "speed"%string (rename_columns columns) /\
  ~ In "travel_time_seconds"%string (rename_columns columns) /\
  (NoDup columns ->
   ~ In "DATETIME"%string columns -> ~ In "MPH"%string columns ->
   ~ In "TT_SEC"%string columns ->
   NoDup (rename_columns columns)).
Proof.
  unfold rename_columns.
  assert (Hback : forall new, In new (map rename_label columns) ->
            exists c, In c columns /\ rename_label c = new)
    by (intros new H; apply in_map_iff in H; destruct H as [c [H1 H2]]; eauto).
  assert (Hnth : forall i c, nth_error columns i = Some c ->
            nth_error (map rename_label columns) i = Some (rename_label c))
    by (intros i c H; rewrite nth_error_map, H; reflexivity).
  split; [apply length_map|].
  split; [intros i H; apply (Hnth _ _ H)|].
  split; [intros i H; apply (Hnth _ _ H)|].
  split; [intros i H; apply (Hnth _ _ H)|].
  split; [|split; [|split; [|split]]].
  - intros i c H N1 N2 N3. rewrite (Hnth _ _ H). f_equal.
    destruct (rename_label_cases c) as [[E _]|[[E _]|[[E _]|(_ & _ & _ & E)]]];
      [contradiction | contradiction | contradiction | exact E].
  - intro H. destruct (Hback _ H) as [c [Hc Hr]].
    destruct (rename_label_cases c) as [[-> E]|[[-> E]|[[-> E]|(N1 & _ & _ & E)]]];
      rewrite E in Hr; try discriminate Hr. contradiction.
  - intro H. destruct (Hback _ H) as [c [Hc Hr]].
    destruct (rename_label_cases c) as [[-> E]|[[-> E]|[[-> E]|(_ & N2 & _ & E)]]];
      rewrite E in Hr; try discriminate Hr. contradiction.
  - intro H. destruct (Hback _ H) as [c [Hc Hr]].
    destruct (rename_label_cases c) as [[-> E]|[[-> E]|[[-> E]|(_ & _ & N3 & E)]]];
      rewrite E in Hr; try discriminate Hr. contradiction.
  - intros Hnd HD HM HT.
    apply NoDup_map_inj; [|exact Hnd]. intros a b Ha Hb Hab.
    destruct (rename_label_cases a) as [[-> Ea]|[[-> Ea]|[[-> Ea]|(A1 & A2 & A3 & Ea)]]];
      destruct (rename_label_cases b) as [[-> Eb]|[[-> Eb]|[[-> Eb]|(B1 & B2 & B3 & Eb)]]];
      rewrite ?Ea in Hab; rewrite ?Eb in Hab;
      try reflexivity; try discriminate Hab;
      try (subst; contradiction).
    exact Hab.
Qed.

Lemma not_In_check (c : string) (l : list string) :
  existsb (String.eqb c) l = false -> ~ In c l.
Proof.
  intros H Hin.
  assert (Hex : existsb (String.eqb c) l = true)
    by (apply existsb_exists; exists c; split;
        [exact Hin | apply String.eqb_refl]).
  rewrite Hex in H. discriminate H.
Qed.

(** The header of an NPMRDS export: its renamed names are distinct. *)
Lemma X19_renamed_columns_witness :
  NoDup (rename_columns npmrds_columns).
Proof.
  apply (proj2 (proj2 (proj2 (proj2 (proj2 (proj2 (proj2 (proj2
           (X19_renamed_columns npmrds_columns))))))))).
  - apply names_distinct_NoDup. vm_compute. reflexivity.
  - apply not_In_check. vm_compute. reflexivity.
  - apply not_In_check. vm_compute. reflexivity.
  - apply not_In_check. vm_compute. reflexivity.
Defined.
